(** * Query filter builder of the identity-management service

    A shallow embedding of [pkg/db/common.go] (pagination clamps, filter
    value normalisation, column projection, the [Chain] query builder), of
    [ComparePassword] and [ModifyPassword] from
    [pkg/service/im/resource/user_password_control.go] and of the membership
    handlers [JoinGroup] and [LeaveGroup] from
    [pkg/service/im/resource/user_group_binding_control.go], followed by the
    properties stated for them. *)

From Stdlib Require Import ZArith Ascii String List Bool Lia.
From stdpp Require Import base option list strings gmap.

Local Open Scope string_scope.
Local Open Scope Z_scope.

(** ** Go primitives used by the package *)

Module Go.

(** A Go slice, keeping the distinction between the nil slice and an
    allocated one ([displayColumns == nil] is tested by
    [GetDisplayColumns]). *)
Inductive slice (A : Type) : Type :=
| nil_slice : slice A
| mk_slice (elems : list A) : slice A.
Arguments nil_slice {A}.
Arguments mk_slice {A} elems.

Definition elems {A} (s : slice A) : list A :=
  match s with
  | nil_slice => []
  | mk_slice l => l
  end.

Definition is_nil {A} (s : slice A) : bool :=
  match s with
  | nil_slice => true
  | mk_slice _ => false
  end.

(** [len(s)] *)
Definition len {A} (s : slice A) : nat := length (elems s).

(** [append(s, x)]: the result is never the nil slice. *)
Definition append {A} (s : slice A) (x : A) : slice A :=
  mk_slice (elems s ++ [x])%list.

(** [uint32] values are integers in [0, 2^32). *)
Definition uint32_range (n : Z) : Prop := 0 <= n < 2 ^ 32.

(** [strings.Split(s, sep)] for a one-byte separator: the pieces of [s]
    between the occurrences of [sep].  [split_from acc s] carries the
    piece being read, in reverse. *)
Fixpoint split_from (sep : ascii) (acc : string) (s : string) : list string :=
  match s with
  | EmptyString => [String.rev acc]
  | String c rest =>
      if Ascii.eqb c sep
      then String.rev acc :: split_from sep EmptyString rest
      else split_from sep (String c acc) rest
  end.

Definition Split (s : string) (sep : ascii) : list string :=
  split_from sep EmptyString s.

(** [strings.Join(elems, sep)] *)
Definition Join (l : list string) (sep : string) : string :=
  String.concat sep l.

(** [strings.HasSuffix(s, suffix)]:
    [len(s) >= len(suffix) && s[len(s)-len(suffix):] == suffix]. *)
Definition HasSuffix (s suffix : string) : bool :=
  let n := String.length s in
  let m := String.length suffix in
  (m <=? n)%nat && String.eqb (substring (n - m) m s) suffix.

End Go.

(** ** [stringutil] *)

Module stringutil.

(** Modelled from the spec: [stringutil.Contains(list, s)] is not part of
    the sources at hand; the spec uses it as the membership test of a
    column in a column list ("only the columns present in a table's full
    column list", "the table's indexed-column set contains that column"). *)
Definition Contains (l : list string) (s : string) : bool :=
  existsb (String.eqb s) l.

End stringutil.

(** ** Pagination *)

Definition DefaultOffset : Z := 0.
Definition DefaultLimit : Z := 20.
Definition DefaultSelectLimit : Z := 200.

(** The two pagination interfaces, [RequestHadOffset] and
    [RequestHadLimit]: a request type provides the accessor. *)
Class RequestHadOffset (R : Type) := req_GetOffset : R -> Z.
Class RequestHadLimit (R : Type) := req_GetLimit : R -> Z.

Definition GetLimit (n : Z) : Z :=
  let n := if n <? 0 then 0 else n in
  let n := if n >? DefaultSelectLimit then DefaultSelectLimit else n in
  n.

Definition GetOffset (n : Z) : Z :=
  let n := if n <? 0 then 0 else n in
  n.

Definition GetOffsetFromRequest {R} `{RequestHadOffset R} (req : R) : Z :=
  let n := req_GetOffset req in
  if n =? 0 then DefaultOffset else GetOffset n.

Definition GetLimitFromRequest {R} `{RequestHadLimit R} (req : R) : Z :=
  let n := req_GetLimit req in
  if n =? 0 then DefaultLimit else GetLimit n.

(** A paginated list request, as the generated request messages carry
    their [limit] and [offset]. *)
Record PageRequest := { page_limit : Z; page_offset : Z }.

#[global] Instance PageRequest_limit : RequestHadLimit PageRequest := page_limit.
#[global] Instance PageRequest_offset : RequestHadOffset PageRequest := page_offset.

(** ** Column projection *)

Definition GetDisplayColumns (displayColumns wholeColumns : Go.slice string)
  : Go.slice string :=
  if Go.is_nil displayColumns then wholeColumns
  else if (Go.len displayColumns =? 0)%nat then Go.nil_slice
  else
    fold_left
      (fun newDisplayColumns column =>
         if stringutil.Contains (Go.elems wholeColumns) column
         then Go.append newDisplayColumns column
         else newDisplayColumns)
      (Go.elems displayColumns) Go.nil_slice.

(** ** Request values and their normalisation *)

(** The dynamic types of the request fields met by [getReqValue]: the four
    its type switch handles and, under [POther], any other type (numbers,
    flags, ...), given by its name. [None] is the nil pointer of a wrapped
    scalar. *)
Inductive Param : Type :=
| PString (value : string)
| PStringValue (value : option string)
| PInt32Value (value : option Z)
| PStrings (value : list string)
| POther (type_name : string).

(** The [interface{}] returned by [getReqValue]: nil, a [[]string] or a
    [[]int32]. *)
Inductive ReqValue : Type :=
| VNil
| VStrings (values : list string)
| VInt32s (values : list Z).

#[global] Instance ReqValue_eq_dec : EqDecision ReqValue.
Proof. solve_decision. Defined.

Definition getReqValue (param : Param) : ReqValue :=
  match param with
  | PString value =>
      if String.eqb value "" then VNil else VStrings [value]
  | PStringValue value =>
      match value with
      | None => VNil
      | Some s => VStrings [s]
      end
  | PInt32Value value =>
      match value with
      | None => VNil
      | Some n => VInt32s [n]
      end
  | PStrings value =>
      let values :=
        fold_left
          (fun values v => if negb (String.eqb v "") then (values ++ [v])%list else values)
          value [] in
      if (length values =? 0)%nat then VNil else VStrings values
  | POther _ => VNil
  end.

(** ** Field descriptors *)

Definition TagName : string := "json".
Definition SearchWordColumnName : string := "search_word".
Definition RootGroupIdColumnName : string := "root_group_id".

(** A field as [structs.Fields] hands it over: its name, its struct tag
    (key to value) and its runtime value. *)
Record Field := {
  field_name : string;
  field_tags : gmap string string;
  field_value : Param
}.

(** [field.Tag(key)]: the value of the key in the struct tag, the empty
    string when the key is not declared. *)
Definition Field_Tag (field : Field) (key : string) : string :=
  default "" (field_tags field !! key).

Definition getFieldName (field : Field) : string :=
  let tag := Field_Tag field TagName in
  let t := Go.Split tag "," in
  match t with
  | [] => "-"
  | t0 :: _ => t0
  end.

(** A request as the builder sees it: the fields [structs.Fields] lists
    for it, and the optional accessors of its dynamic type ([None] when the
    type has no such method). *)
Record Request := {
  req_fields : list Field;
  req_GetSortKey : option string;
  req_GetReverse : option bool
}.

Definition structs_Fields (req : Request) : list Field := req_fields req.

(** [req.(RequestWithSortKey)]: the dynamic type has [GetSortKey]. The
    result is what [GetSortKey()] returns. *)
Definition as_RequestWithSortKey (req : Request) : option string :=
  req_GetSortKey req.

(** [req.(RequestWithReverse)]: the interface embeds [RequestWithSortKey],
    so the dynamic type must have both [GetSortKey] and [GetReverse]. The
    result is what [GetReverse()] returns. *)
Definition as_RequestWithReverse (req : Request) : option bool :=
  match req_GetSortKey req with
  | Some _ => req_GetReverse req
  | None => None
  end.

(** ** The query chain *)

(** One recorded [Where(query, args...)] call. *)
Record WhereCond := { query : string; args : list ReqValue }.

(** The part of [gorm.DB] the builder writes to: the conditions and the
    orderings recorded so far, oldest first. The statement is restricted to
    the conjunction (AND) of the recorded conditions. *)
Record DB := { whereConditions : list WhereCond; orders : list string }.

(** [db.Where(query, args...)] records the condition. *)
Definition DB_Where (db : DB) (q : string) (a : list ReqValue) : DB :=
  {| whereConditions := (whereConditions db ++ [{| query := q; args := a |}])%list;
     orders := orders db |}.

(** [db.Order(value)] records the ordering unless it is the empty string. *)
Definition DB_Order (db : DB) (value : string) : DB :=
  if String.eqb value "" then db
  else {| whereConditions := whereConditions db; orders := (orders db ++ [value])%list |}.

(** The conditions that reach the WHERE clause of the statement: gorm's
    statement builder skips a recorded condition whose query text is the
    empty string. *)
Definition DB_rendered (db : DB) : list WhereCond :=
  filter (fun w => query w ≠ "") (whereConditions db).

(** The ORDER BY clause of the statement. *)
Definition DB_orderSQL (db : DB) : string :=
  match orders db with
  | [] => ""
  | os => "ORDER BY " +:+ Go.Join os ","
  end.

Record Chain := { chain_DB : DB }.

Definition GetChain (tx : DB) : Chain := {| chain_DB := tx |}.

Definition AddQueryOrderDir (c : Chain) (req : Request) (defaultColumn : string) : Chain :=
  let order := "DESC" in
  let order :=
    match as_RequestWithReverse req with
    | Some reverse => if reverse then "ASC" else order
    | None => order
    end in
  let defaultColumn :=
    match as_RequestWithSortKey req with
    | Some s => if negb (String.eqb s "") then s else defaultColumn
    | None => defaultColumn
    end in
  {| chain_DB := DB_Order (chain_DB c) (defaultColumn +:+ " " +:+ order) |}.

Inductive error : Type := mk_error (msg : string).

(** Messages handed to the logger. *)
Inductive LogArg : Type :=
| AString (s : string)
| AValue (v : ReqValue)
| AError (e : error).

Inductive LogEntry : Type :=
| Warnf (format : string) (a : list LogArg)
| Errorf (format : string) (a : list LogArg).

(** A chain under construction together with the log written so far. *)
Record Build := { build_chain : Chain; build_log : list LogEntry }.

(** The conditions recorded on the chain of a build, and those that are
    rendered into the statement. *)
Definition Build_conditions (b : Build) : list WhereCond :=
  whereConditions (chain_DB (build_chain b)).

Definition Build_rendered (b : Build) : list WhereCond :=
  DB_rendered (chain_DB (build_chain b)).

(** The tables of package [constants] read by the builder. *)
Class Constants := {
  IndexedColumns : gmap string (list string);
  SearchColumns : gmap string (list string);
  SearchWordColumnTable : list string;
  ColumnGroupPath : string
}.

(** [stringutil.SimplifyString], the neutralisation applied to a term before
    it is put between the wildcards of a LIKE pattern. *)
Class Stringutil := SimplifyString : string -> string.

Section Builder.
Context `{Constants} `{Stringutil}.

Definition BuildRootGroupIdConditions (c : Chain) (rootGroupIds : list string) : Chain :=
  if (0 <? length rootGroupIds)%nat then
    let conditions :=
      fold_left
        (fun conditions v =>
           let likeV := "%" +:+ SimplifyString v +:+ "%" in
           (conditions ++ [ColumnGroupPath +:+ " LIKE '" +:+ likeV +:+ "'"])%list)
        rootGroupIds [] in
    let condition := Go.Join conditions " OR " in
    {| chain_DB := DB_Where (chain_DB c) condition [] |}
  else c.

(** The sub-clauses one search term adds to [orConditions]. *)
Definition searchColumnsLoop (tableName v : string) (exclude : list string)
    (orConditions : list string) : list string :=
  fold_left
    (fun orConditions column =>
       if stringutil.Contains exclude column then orConditions
       else if Go.HasSuffix column "_id"
       then (orConditions ++ [column +:+ " = '" +:+ v +:+ "'"])%list
       else
         let likeV := "%" +:+ SimplifyString v +:+ "%" in
         (orConditions ++ [column +:+ " LIKE '" +:+ likeV +:+ "'"])%list)
    (default [] (SearchColumns !! tableName)) orConditions.

Definition getSearchFilter (tableName : string) (value : ReqValue)
    (exclude : list string) (b : Build) : Build :=
  let '(andConditions, logged) :=
    match value with
    | VStrings vs =>
        let orConditions :=
          fold_left
            (fun orConditions v => searchColumnsLoop tableName v exclude orConditions)
            vs [] in
        ([Go.Join orConditions " OR "], [])
    | VNil => ([], [])
    | VInt32s _ =>
        ([], [Warnf "search_word [%+v] is not []string" [AValue value]])
    end in
  let condition := Go.Join andConditions " AND " in
  {| build_chain := {| chain_DB := DB_Where (chain_DB (build_chain b)) condition [] |};
     build_log := (build_log b ++ logged)%list |}.

(** The body of the loop of [buildFilterConditions] for one field. *)
Definition buildFilterField (tableName : string) (exclude : list string)
    (b : Build) (field : Field) : Build :=
  let column := getFieldName field in
  let param := field_value field in
  let b :=
    match IndexedColumns !! tableName with
    | Some indexedColumns =>
        if stringutil.Contains indexedColumns column then
          let value := getReqValue param in
          if decide (value ≠ VNil) then
            let key := column in
            {| build_chain :=
                 {| chain_DB := DB_Where (chain_DB (build_chain b)) (key +:+ " in (?)") [value] |};
               build_log := build_log b |}
          else b
        else b
    | None => b
    end in
  if String.eqb column SearchWordColumnName
     && stringutil.Contains SearchWordColumnTable tableName
  then
    let value := getReqValue param in
    getSearchFilter tableName value exclude b
  else b.

Definition buildFilterConditions (b : Build) (req : Request) (tableName : string)
    (exclude : list string) : Build :=
  fold_left (buildFilterField tableName exclude) (structs_Fields req) b.

Definition BuildFilterConditions (b : Build) (req : Request) (tableName : string)
    (exclude : list string) : Build :=
  buildFilterConditions b req tableName exclude.

End Builder.

(** ** Password comparison *)

Record User := { UserId : string; Password : string }.

Record ComparePasswordRequest := { cp_UserId : string; cp_Password : string }.

Record ComparePasswordResponse := { Ok : bool }.

(** The collaborators of [ComparePassword]: the user table ([Take] fills
    the record or fails), bcrypt ([None] is the nil error of a matching
    hash) and the digest printed in the log. *)
Class Services := {
  Database_Take : User -> error + User;
  bcrypt_CompareHashAndPassword : string -> string -> option error;
  md5_Sum : string -> string
}.

Definition ComparePassword `{Services} (req : ComparePasswordRequest)
  : option ComparePasswordResponse * option error * list LogEntry :=
  let user := {| UserId := cp_UserId req; Password := "" |} in
  match Database_Take user with
  | inl err =>
      (None, Some err,
       [Errorf "Get user [%s] failed: %+v" [AString (cp_UserId req); AError err]])
  | inr user =>
      match bcrypt_CompareHashAndPassword (Password user) (cp_Password req) with
      | Some _ =>
          (Some {| Ok := false |}, None,
           [Errorf "Compare password failed, md5(password): %x"
                   [AString (md5_Sum (cp_Password req))]])
      | None => (Some {| Ok := true |}, None, [])
      end
  end.

(** ** Tables and collaborators for evaluating the code on examples *)

Definition example_Constants : Constants := {|
  IndexedColumns := {[ "user" := ["user_id"; "status"] ]};
  SearchColumns := {[ "user" := ["user_id"; "name"] ]};
  SearchWordColumnTable := ["user"];
  ColumnGroupPath := "group_path"
|}.

(** Leaves a term as it is. *)
Definition example_Stringutil : Stringutil := fun s => s.

Definition json_field (name tag : string) (value : Param) : Field :=
  {| field_name := name; field_tags := {[ TagName := tag ]}; field_value := value |}.

Definition untagged_field (name : string) (value : Param) : Field :=
  {| field_name := name; field_tags := ∅; field_value := value |}.

Definition empty_DB : DB := {| whereConditions := []; orders := [] |}.

Definition empty_Build : Build :=
  {| build_chain := GetChain empty_DB; build_log := [] |}.

(** One user, "u-1", whose stored hash is matched by the password
    "secret" only. *)
Definition example_Services : Services := {|
  Database_Take := fun user =>
    if String.eqb (UserId user) "u-1"
    then inr {| UserId := "u-1"; Password := "$2a$10$hash" |}
    else inl (mk_error "record not found");
  bcrypt_CompareHashAndPassword := fun hash password =>
    if String.eqb hash "$2a$10$hash" && String.eqb password "secret"
    then None
    else Some (mk_error "crypto/bcrypt: hashedPassword is not the hash of the given password");
  md5_Sum := fun s => s
|}.

(** ** Group membership and password change *)

(** [status.Errorf(code, message)]: the error of a gRPC status, with the
    text its [Error()] gives. *)
Definition status_Errorf (code message : string) : error :=
  mk_error ("rpc error: code = " +:+ code +:+ " desc = " +:+ message).

Definition codes_InvalidArgument : string := "InvalidArgument".
Definition codes_PermissionDenied : string := "PermissionDenied".

(** What package [models] and the clock provide to these handlers: the
    binding record built for a user and a group, the hash stored for a
    password, the time of the call. *)
Class Models := {
  UserGroupBinding : Type;
  NewUserGroupBinding : string -> string -> UserGroupBinding;
  GetBcryptPassword : string -> string;
  time_Now : Z
}.

(** The columns written by [ModifyPassword]. *)
Class Columns := {
  ColumnPassword : string;
  ColumnUpdateTime : string
}.

Inductive AttrValue : Type :=
| AttrString (s : string)
| AttrTime (t : Z).

Record JoinGroupRequest := { jg_UserId : list string; jg_GroupId : list string }.
Record JoinGroupResponse := { jgr_GroupId : list string; jgr_UserId : list string }.
Record LeaveGroupRequest := { lg_UserId : list string; lg_GroupId : list string }.
Record LeaveGroupResponse := { lgr_GroupId : list string; lgr_UserId : list string }.
Record ModifyPasswordRequest := { mp_UserId : string; mp_Password : string }.
Record ModifyPasswordResponse := { mpr_UserId : string }.

Section Handlers.
Context `{Models} `{Columns}.

(** The calls the handlers make on the database, as they are issued:
    the binding lookup by group ids and user ids, the transaction
    brackets, the insertion of a binding, the deletion of bindings by
    group ids and user ids, the update of a user's columns. *)
Inductive DbOp : Type :=
| OpFindBindings (groupIds userIds : list string)
| OpBegin
| OpCreate (binding : UserGroupBinding)
| OpRollback
| OpCommit
| OpDeleteBindings (groupIds userIds : list string)
| OpUpdateUser (userId : string) (attributes : gmap string AttrValue).

(** The database: a state and the answer to each call ([None] is the nil
    error). *)
Class Database := {
  db_state : Type;
  db_FindBindings :
    list string -> list string -> db_state -> (error + list UserGroupBinding) * db_state;
  db_Begin : db_state -> db_state;
  db_Create : UserGroupBinding -> db_state -> option error * db_state;
  db_Rollback : db_state -> db_state;
  db_Commit : db_state -> option error * db_state;
  db_DeleteBindings : list string -> list string -> db_state -> option error * db_state;
  db_UpdateUser : string -> gmap string AttrValue -> db_state -> option error * db_state
}.

Context `{Database}.

(** The world a handler runs in: the database, the calls issued on it so
    far and the log. *)
Record World := { w_db : db_state; w_trace : list DbOp; w_log : list LogEntry }.

(** Handlers are state transformers over the world. *)
Definition M (A : Type) : Type := World -> A * World.

#[global] Instance M_ret : MRet M := fun A (x : A) w => (x, w).
#[global] Instance M_bind : MBind M :=
  fun A B (k : A -> M B) (m : M A) w => let '(x, w') := m w in k x w'.

(** A call on the database: the answer comes from the database, the call
    is added to the trace. *)
Definition call {A} (op : DbOp) (answer : db_state -> A * db_state) : M A :=
  fun w =>
    let '(x, d) := answer (w_db w) in
    (x, {| w_db := d; w_trace := (w_trace w ++ [op])%list; w_log := w_log w |}).

Definition logger_Errorf (format : string) (a : list LogArg) : M unit :=
  fun w =>
    (tt, {| w_db := w_db w; w_trace := w_trace w;
            w_log := (w_log w ++ [Errorf format a])%list |}).

Definition GetUserGroupBindings (userIds groupIds : list string)
  : M (error + list UserGroupBinding) :=
  r ← call (OpFindBindings groupIds userIds) (db_FindBindings groupIds userIds);
  match r with
  | inl err =>
      _ ← logger_Errorf "Get user group binding failed: %+v" [AError err];
      mret (inl err)
  | inr userGroupBindings => mret (inr userGroupBindings)
  end.

(** The inner loop of [JoinGroup]: the bindings of one group, user by
    user; the first failing insertion rolls back and ends the handler
    with its error. *)
Fixpoint JoinGroup_users (groupId : string) (userIds : list string) : M (option error) :=
  match userIds with
  | [] => mret None
  | userId :: rest =>
      let binding := NewUserGroupBinding userId groupId in
      e ← call (OpCreate binding) (db_Create binding);
      match e with
      | Some err =>
          _ ← call OpRollback (fun d => (tt, db_Rollback d));
          _ ← logger_Errorf "Insert user group binding failed: %+v" [AError err];
          mret (Some err)
      | None => JoinGroup_users groupId rest
      end
  end.

(** The outer loop of [JoinGroup], group by group. *)
Fixpoint JoinGroup_groups (groupIds userIds : list string) : M (option error) :=
  match groupIds with
  | [] => mret None
  | groupId :: rest =>
      e ← JoinGroup_users groupId userIds;
      match e with
      | Some err => mret (Some err)
      | None => JoinGroup_groups rest userIds
      end
  end.

Definition JoinGroup (req : JoinGroupRequest)
  : M (option JoinGroupResponse * option error) :=
  if (length (jg_UserId req) =? 0)%nat || (length (jg_GroupId req) =? 0)%nat then
    let err := status_Errorf codes_InvalidArgument "empty user id or group id" in
    _ ← logger_Errorf "%+v" [AError err];
    mret (None, Some err)
  else
    r ← GetUserGroupBindings (jg_UserId req) (jg_GroupId req);
    match r with
    | inl err => mret (None, Some err)
    | inr userGroupBindings =>
        if negb (length userGroupBindings =? 0)%nat then
          let err := status_Errorf codes_PermissionDenied "user already in group" in
          _ ← logger_Errorf "%+v" [AError err];
          mret (None, Some err)
        else
          _ ← call OpBegin (fun d => (tt, db_Begin d));
          e ← JoinGroup_groups (jg_GroupId req) (jg_UserId req);
          match e with
          | Some err => mret (None, Some err)
          | None =>
              e ← call OpCommit db_Commit;
              match e with
              | Some err =>
                  _ ← logger_Errorf "Batch insert user group binding failed: %+v"
                        [AError err];
                  mret (None, Some err)
              | None =>
                  mret (Some {| jgr_GroupId := jg_GroupId req;
                                jgr_UserId := jg_UserId req |}, None)
              end
          end
    end.

Definition LeaveGroup (req : LeaveGroupRequest)
  : M (option LeaveGroupResponse * option error) :=
  if (length (lg_UserId req) =? 0)%nat || (length (lg_GroupId req) =? 0)%nat then
    let err := status_Errorf codes_InvalidArgument "empty user id or group id" in
    _ ← logger_Errorf "%+v" [AError err];
    mret (None, Some err)
  else
    r ← GetUserGroupBindings (lg_UserId req) (lg_GroupId req);
    match r with
    | inl err => mret (None, Some err)
    | inr userGroupBindings =>
        if negb (length userGroupBindings
                 =? length (lg_UserId req) * length (lg_GroupId req))%nat then
          let err := status_Errorf codes_PermissionDenied "user not in group" in
          _ ← logger_Errorf "%+v" [AError err];
          mret (None, Some err)
        else
          e ← call (OpDeleteBindings (lg_GroupId req) (lg_UserId req))
                (db_DeleteBindings (lg_GroupId req) (lg_UserId req));
          match e with
          | Some err =>
              _ ← logger_Errorf "Delete user group binding failed: %+v" [AError err];
              mret (None, Some err)
          | None =>
              mret (Some {| lgr_GroupId := lg_GroupId req;
                            lgr_UserId := lg_UserId req |}, None)
          end
    end.

Definition ModifyPassword (req : ModifyPasswordRequest)
  : M (option ModifyPasswordResponse * option error) :=
  if String.eqb (mp_Password req) "" then
    let err := status_Errorf codes_InvalidArgument "empty password" in
    _ ← logger_Errorf "%+v" [AError err];
    mret (None, Some err)
  else
    let attributes : gmap string AttrValue :=
      <[ColumnUpdateTime := AttrTime time_Now]>
        (<[ColumnPassword := AttrString (GetBcryptPassword (mp_Password req))]> ∅) in
    e ← call (OpUpdateUser (mp_UserId req) attributes)
          (db_UpdateUser (mp_UserId req) attributes);
    match e with
    | Some err =>
        _ ← logger_Errorf "Modify user [%s] password failed: %+v"
              [AString (mp_UserId req); AError err];
        mret (None, Some err)
    | None => mret (Some {| mpr_UserId := mp_UserId req |}, None)
    end.

End Handlers.

(** An in-memory database for evaluating the handlers: the bindings as
    (user id, group id) pairs, written to only on commit; it never fails. *)
Definition example_Models : Models := {|
  UserGroupBinding := string * string;
  NewUserGroupBinding := fun userId groupId => (userId, groupId);
  GetBcryptPassword := fun password => "$2a$10$" +:+ password;
  time_Now := 1572480000
|}.

Definition example_Columns : Columns :=
  {| ColumnPassword := "password"; ColumnUpdateTime := "update_time" |}.

Record example_db := {
  stored : list (string * string);
  pending : list (string * string)
}.

Definition example_Database : @Database example_Models := {|
  db_state := example_db;
  db_FindBindings := fun groupIds userIds d =>
    (inr (List.filter
            (fun b : string * string =>
               stringutil.Contains userIds b.1 && stringutil.Contains groupIds b.2)
            (stored d) : list (@UserGroupBinding example_Models)), d);
  db_Begin := fun d => {| stored := stored d; pending := [] |};
  db_Create := fun (b : @UserGroupBinding example_Models) d =>
    (None, {| stored := stored d; pending := (pending d ++ [b : string * string])%list |});
  db_Rollback := fun d => {| stored := stored d; pending := [] |};
  db_Commit := fun d => (None, {| stored := (stored d ++ pending d)%list; pending := [] |});
  db_DeleteBindings := fun groupIds userIds d =>
    (None,
     {| stored :=
          List.filter
            (fun b : string * string =>
               negb (stringutil.Contains userIds b.1 && stringutil.Contains groupIds b.2))
            (stored d);
        pending := pending d |});
  db_UpdateUser := fun _ _ d => (None, d)
|}.

Definition example_World (bindings : list (string * string))
  : @World example_Models example_Database :=
  @Build_World example_Models example_Database
    ({| stored := bindings; pending := [] |} : example_db) [] [].

(** * Properties *)

(** ** Helper lemmas on the Go primitives *)

Lemma Contains_elem_of (l : list string) (s : string) :
  stringutil.Contains l s = true <-> s ∈ l.
Proof.
  unfold stringutil.Contains. rewrite existsb_exists. split.
  - intros (x & Hin & Heq). apply String.eqb_eq in Heq. subst x.
    by apply list_elem_of_In.
  - intros Hin. exists s. split; [by apply list_elem_of_In | apply String.eqb_refl].
Qed.

Lemma Contains_filter (whole l : list string) :
  List.filter (stringutil.Contains whole) l = filter (λ c, c ∈ whole) l.
Proof.
  induction l as [|c l IH]; [done|]. simpl. rewrite filter_cons, IH.
  destruct (stringutil.Contains whole c) eqn:Hc.
  - apply Contains_elem_of in Hc. by rewrite decide_True.
  - rewrite decide_False; [done|]. intros Hin.
    apply Contains_elem_of in Hin. congruence.
Qed.

(** A loop that only appends to its accumulator appends the concatenation
    of what each iteration contributes. *)
Lemma fold_left_appends {A B} (f : list B -> A -> list B) (h : A -> list B) :
  (forall acc x, f acc x = (acc ++ h x)%list) ->
  forall l acc, fold_left f l acc = (acc ++ flat_map h l)%list.
Proof.
  intros Hf l. induction l as [|x l IH]; intros acc; simpl.
  - by rewrite app_nil_r.
  - rewrite IH, Hf. by rewrite <- app_assoc.
Qed.

Lemma split_from_nonempty (sep : ascii) (s acc : string) :
  Go.split_from sep acc s <> [].
Proof.
  revert acc. induction s as [|c s IH]; intros acc; simpl; [done|].
  destruct (Ascii.eqb c sep); [done | apply IH].
Qed.

(** [strings.Split] with a non-empty separator never returns an empty
    slice. *)
Lemma Split_nonempty (s : string) (sep : ascii) : Go.Split s sep <> [].
Proof. apply split_from_nonempty. Qed.

Lemma string_eqb_empty (s : string) :
  String.eqb s "" = bool_decide (s = "").
Proof.
  destruct s as [|a s].
  - symmetry. by apply bool_decide_eq_true_2.
  - symmetry. by apply bool_decide_eq_false_2.
Qed.

(** ** Pagination *)

(** C7: for a request whose limit is a [uint32], [GetLimitFromRequest]
    returns the default limit 20 when the limit is 0, the maximum 200 when
    the limit exceeds 200 and the limit itself otherwise; limit 500 gives
    200 and limit 50 gives 50. *)
Theorem GetLimitFromRequest_clamped {R} `{RequestHadLimit R} (req : R) :
  Go.uint32_range (req_GetLimit req) ->
  GetLimitFromRequest req =
    (if decide (req_GetLimit req = 0) then 20
     else if decide (200 < req_GetLimit req) then 200
     else req_GetLimit req)
  /\ GetLimitFromRequest {| page_limit := 0; page_offset := 0 |} = 20
  /\ GetLimitFromRequest {| page_limit := 500; page_offset := 0 |} = 200
  /\ GetLimitFromRequest {| page_limit := 50; page_offset := 0 |} = 50.
Proof.
  intros [Hlo Hhi]. split; [|done].
  unfold GetLimitFromRequest, GetLimit, DefaultLimit, DefaultSelectLimit.
  destruct (decide (req_GetLimit req = 0)) as [->|Hne]; [done|].
  destruct (Z.eqb_spec (req_GetLimit req) 0) as [|_]; [done|].
  destruct (Z.ltb_spec (req_GetLimit req) 0) as [|_]; [lia|].
  destruct (decide (200 < req_GetLimit req)) as [Hgt|Hle].
  - by rewrite (proj2 (Z.gtb_gt _ _)) by lia.
  - destruct (req_GetLimit req >? 200) eqn:Hcmp; [|done].
    apply Z.gtb_gt in Hcmp. lia.
Qed.

Lemma GetLimitFromRequest_clamped_witness :
  Go.uint32_range 500 /\
  GetLimitFromRequest {| page_limit := 500; page_offset := 0 |} = 200.
Proof.
  assert (Hr : Go.uint32_range 500) by (unfold Go.uint32_range; lia).
  split; [exact Hr|].
  exact (proj1 (GetLimitFromRequest_clamped {| page_limit := 500; page_offset := 0 |} Hr)).
Defined.

(** ** Column projection *)

Lemma GetDisplayColumns_loop (whole l : list string) (acc : Go.slice string) :
  Go.elems
    (fold_left
       (fun newDisplayColumns column =>
          if stringutil.Contains whole column
          then Go.append newDisplayColumns column
          else newDisplayColumns) l acc)
  = (Go.elems acc ++ filter (λ c, c ∈ whole) l)%list.
Proof.
  revert acc. induction l as [|c l IH]; intros acc; simpl.
  - by rewrite app_nil_r.
  - rewrite IH, filter_cons. destruct (stringutil.Contains whole c) eqn:Hc.
    + apply Contains_elem_of in Hc. rewrite decide_True by done.
      simpl. by rewrite <- app_assoc.
    + rewrite decide_False; [done|]. intros Hin.
      apply Contains_elem_of in Hin. congruence.
Qed.

(** C8: [GetDisplayColumns] returns [wholeColumns] when [displayColumns] is
    nil, an empty result when it is the empty list, and otherwise the
    columns of [displayColumns], in their order, that occur in
    [wholeColumns]; [GetDisplayColumns(["a","z"], ["a","b"])] is [["a"]]. *)
Theorem GetDisplayColumns_projection (wholeColumns : Go.slice string) :
  GetDisplayColumns Go.nil_slice wholeColumns = wholeColumns
  /\ Go.elems (GetDisplayColumns (Go.mk_slice []) wholeColumns) = []
  /\ (forall displayColumns : list string,
        Go.elems (GetDisplayColumns (Go.mk_slice displayColumns) wholeColumns)
        = filter (λ c, c ∈ Go.elems wholeColumns) displayColumns)
  /\ GetDisplayColumns (Go.mk_slice ["a"; "z"]) (Go.mk_slice ["a"; "b"])
     = Go.mk_slice ["a"].
Proof.
  repeat split; try done.
  intros l. unfold GetDisplayColumns. simpl.
  destruct l as [|c l]; [done|].
  change (Go.len (Go.mk_slice (c :: l)) =? 0)%nat with false. cbv iota.
  by rewrite GetDisplayColumns_loop.
Qed.

(** ** Normalisation of filter values *)

Lemma getReqValue_strings_loop (l acc : list string) :
  fold_left
    (fun values v => if negb (String.eqb v "") then (values ++ [v])%list else values)
    l acc
  = (acc ++ filter (λ v, v ≠ "") l)%list.
Proof.
  revert acc. induction l as [|v l IH]; intros acc; simpl.
  - by rewrite app_nil_r.
  - rewrite IH, filter_cons, string_eqb_empty.
    case_bool_decide as Hv; simpl.
    + rewrite decide_False; [done|]. by intros Hne.
    + rewrite decide_True by done. by rewrite <- app_assoc.
Qed.

Lemma getReqValue_strings (l : list string) :
  getReqValue (PStrings l) =
    match filter (λ v, v ≠ "") l with
    | [] => VNil
    | vs => VStrings vs
    end.
Proof.
  unfold getReqValue. rewrite getReqValue_strings_loop. simpl.
  by destruct (filter (λ v, v ≠ "") l).
Qed.

(** C3: [getReqValue] yields absent (nil) for the empty string, for a nil
    wrapped scalar and for a string list whose elements are all empty; a
    singleton list for a non-empty plain string, for a wrapped string and
    for a wrapped int32; and, for a string list, the list of its non-empty
    elements. *)
Theorem getReqValue_normalises :
  getReqValue (PString "") = VNil
  /\ getReqValue (PStringValue None) = VNil
  /\ getReqValue (PInt32Value None) = VNil
  /\ (forall l, Forall (λ v, v = "") l -> getReqValue (PStrings l) = VNil)
  /\ (forall s, s <> "" -> getReqValue (PString s) = VStrings [s])
  /\ (forall s, getReqValue (PStringValue (Some s)) = VStrings [s])
  /\ (forall n, getReqValue (PInt32Value (Some n)) = VInt32s [n])
  /\ (forall l,
        getReqValue (PStrings l) =
          match filter (λ v, v ≠ "") l with
          | [] => VNil
          | vs => VStrings vs
          end).
Proof.
  repeat split; try done.
  - intros l Hall. rewrite getReqValue_strings.
    replace (filter (λ v, v ≠ "") l) with (@nil string); [done|].
    symmetry. induction Hall as [|v l Hv _ IH]; [done|].
    rewrite filter_cons, decide_False; [exact IH|]. by intros Hne.
  - intros s Hs. simpl. rewrite string_eqb_empty.
    by rewrite bool_decide_eq_false_2.
  - apply getReqValue_strings.
Qed.

(** ** Column names of fields *)

(** C6 (the code, where it departs from the claim): for a field whose
    [json] tag is absent, [getFieldName] returns the empty string, not the
    marker "-": [strings.Split] never returns an empty slice, so the branch
    returning "-" is never taken. *)
Theorem getFieldName_absent_tag (name : string) (tags : gmap string string)
    (value : Param) :
  getFieldName
    {| field_name := name; field_tags := delete TagName tags; field_value := value |}
  = ""
  /\ getFieldName (untagged_field name value) <> "-".
Proof.
  split.
  - unfold getFieldName, Field_Tag. simpl. by rewrite lookup_delete_eq.
  - done.
Qed.

(** ** Ordering *)

Lemma order_text_nonempty (column order : string) :
  String.eqb (column +:+ " " +:+ order) "" = false.
Proof. by destruct column. Qed.

(** C9 (as stated, refuted): a request whose type has [GetReverse],
    returning true, but no [GetSortKey] is not a [RequestWithReverse]; the
    ordering attached for it is descending, not ascending. *)
Lemma AddQueryOrderDir_reverse_without_sort_key :
  DB_orderSQL
    (chain_DB
       (AddQueryOrderDir (GetChain empty_DB)
          {| req_fields := []; req_GetSortKey := None; req_GetReverse := Some true |}
          "create_time"))
  = "ORDER BY create_time DESC"
  /\ DB_orderSQL
       (chain_DB
          (AddQueryOrderDir (GetChain empty_DB)
             {| req_fields := []; req_GetSortKey := None; req_GetReverse := Some true |}
             "create_time"))
     <> "ORDER BY create_time ASC".
Proof. split; [reflexivity | vm_compute; discriminate]. Qed.


(** C9 (amended): [AddQueryOrderDir] attaches the ordering [S D], rendered
    [ORDER BY S D], where S is the request's sort key if the request exposes
    a non-empty sort key and the default column otherwise, and D is ASC if
    the request exposes both a sort key and a reverse flag and the flag is
    true, and DESC otherwise. With an empty sort key and reverse false on
    default column "create_time" this is [ORDER BY create_time DESC]; with
    sort key "name" and reverse true it is [ORDER BY name ASC]. *)
Theorem AddQueryOrderDir_order (c : Chain) (req : Request) (defaultColumn : string) :
  let S :=
    match req_GetSortKey req with
    | Some s => if decide (s = "") then defaultColumn else s
    | None => defaultColumn
    end in
  let D :=
    match req_GetSortKey req, req_GetReverse req with
    | Some _, Some true => "ASC"
    | _, _ => "DESC"
    end in
  AddQueryOrderDir c req defaultColumn =
    {| chain_DB :=
         {| whereConditions := whereConditions (chain_DB c);
            orders := (orders (chain_DB c) ++ [S +:+ " " +:+ D])%list |} |}
  /\ DB_orderSQL
       (chain_DB
          (AddQueryOrderDir (GetChain empty_DB)
             {| req_fields := []; req_GetSortKey := Some ""; req_GetReverse := Some false |}
             "create_time"))
     = "ORDER BY create_time DESC"
  /\ DB_orderSQL
       (chain_DB
          (AddQueryOrderDir (GetChain empty_DB)
             {| req_fields := []; req_GetSortKey := Some "name"; req_GetReverse := Some true |}
             "create_time"))
     = "ORDER BY name ASC".
Proof.
  intros S D. split; [|done].
  unfold AddQueryOrderDir, DB_Order, as_RequestWithReverse, as_RequestWithSortKey.
  rewrite order_text_nonempty. subst S D.
  destruct (req_GetSortKey req) as [s|]; [|done].
  rewrite string_eqb_empty.
  destruct (decide (s = "")) as [->|Hs].
  - rewrite bool_decide_eq_true_2 by done.
    by destruct (req_GetReverse req) as [[]|].
  - rewrite bool_decide_eq_false_2 by done.
    by destruct (req_GetReverse req) as [[]|].
Qed.

(** ** Password comparison *)

(** C10: when the user lookup succeeds, [ComparePassword] returns a
    response and a nil error, with [Ok] false if bcrypt reports a mismatch
    and [Ok] true if it does not; a nil response with an error is returned
    only when the lookup fails, and the error is the lookup's. *)
Theorem ComparePassword_result `{Services} (req : ComparePasswordRequest) :
  let lookup := Database_Take {| UserId := cp_UserId req; Password := "" |} in
  (forall user,
     lookup = inr user ->
     (ComparePassword req).1 =
       (Some {| Ok := bool_decide
                        (bcrypt_CompareHashAndPassword (Password user) (cp_Password req)
                         = None) |},
        None))
  /\ (forall err,
        (ComparePassword req).1 = (None, Some err) -> lookup = inl err)
  /\ (forall err,
        lookup = inl err -> (ComparePassword req).1 = (None, Some err)).
Proof.
  intros lookup. subst lookup. unfold ComparePassword.
  destruct (Database_Take _) as [e|user]; repeat split.
  - intros user Hu. discriminate Hu.
  - intros err Herr. simpl in Herr. congruence.
  - intros err Herr. simpl. congruence.
  - intros user' Hu. injection Hu as <-.
    by destruct (bcrypt_CompareHashAndPassword _ _).
  - intros err Herr.
    destruct (bcrypt_CompareHashAndPassword _ _); simpl in Herr; discriminate Herr.
  - intros err Herr. discriminate Herr.
Qed.

(** ** The filter builder *)

Lemma flat_map_singleton_map {A B} (g : A -> B) (l : list A) :
  flat_map (fun x => [g x]) l = map g l.
Proof. induction l as [|x l IH]; simpl; [done | by rewrite IH]. Qed.

Lemma string_app_assoc (s t u : string) :
  (s +:+ t) +:+ u = s +:+ (t +:+ u).
Proof.
  induction s as [|a s IH]; [done|].
  change (String a ((s +:+ t) +:+ u) = String a (s +:+ (t +:+ u))).
  by rewrite IH.
Qed.

Lemma like_text (column term : string) :
  column +:+ " LIKE '" +:+ ("%" +:+ term +:+ "%") +:+ "'"
  = column +:+ " LIKE '%" +:+ term +:+ "%'".
Proof. by rewrite !string_app_assoc. Qed.

Lemma in_text_nonempty (column : string) : column +:+ " in (?)" <> "".
Proof. by destruct column. Qed.

Lemma string_length_app (s t : string) :
  String.length (s +:+ t) = (String.length s + String.length t)%nat.
Proof.
  induction s as [|a s IH]; [done|].
  change (S (String.length (s +:+ t)) = S (String.length s + String.length t)).
  by rewrite IH.
Qed.

Lemma string_app_inj_r (s1 s2 t : string) :
  s1 +:+ t = s2 +:+ t -> s1 = s2.
Proof.
  revert s2. induction s1 as [|a s1 IH]; intros [|a2 s2] Heq; [done| | |].
  - apply (f_equal String.length) in Heq.
    rewrite (string_length_app (String a2 s2) t) in Heq.
    change (String.length ("" +:+ t)) with (String.length t) in Heq.
    change (String.length (String a2 s2)) with (S (String.length s2)) in Heq. lia.
  - apply (f_equal String.length) in Heq.
    rewrite (string_length_app (String a s1) t) in Heq.
    change (String.length ("" +:+ t)) with (String.length t) in Heq.
    change (String.length (String a s1)) with (S (String.length s1)) in Heq. lia.
  - change (String a (s1 +:+ t) = String a2 (s2 +:+ t)) in Heq.
    injection Heq as -> Heq. f_equal. by apply IH.
Qed.

Section BuilderProperties.
Context `{Constants} `{Stringutil}.

Lemma BuildRootGroupIdConditions_loop (ids acc : list string) :
  fold_left
    (fun conditions v =>
       let likeV := "%" +:+ SimplifyString v +:+ "%" in
       (conditions ++ [ColumnGroupPath +:+ " LIKE '" +:+ likeV +:+ "'"])%list)
    ids acc
  = (acc ++ map (fun v => ColumnGroupPath +:+ " LIKE '%" +:+ SimplifyString v +:+ "%'")
                ids)%list.
Proof.
  rewrite <- flat_map_singleton_map.
  apply fold_left_appends. intros conditions v. cbv zeta.
  by rewrite like_text.
Qed.

(** C5: for a non-empty list of root group ids,
    [BuildRootGroupIdConditions] records on the chain (so ANDs into it) one
    condition, the OR over the ids of the LIKE predicates on the group-path
    column, each on its own neutralised id between wildcards; for the empty
    list it returns the chain unchanged. *)
Theorem BuildRootGroupIdConditions_or_of_likes (c : Chain) (id : string)
    (ids : list string) :
  BuildRootGroupIdConditions c (id :: ids) =
    {| chain_DB :=
         DB_Where (chain_DB c)
           (Go.Join
              (map (fun v => ColumnGroupPath +:+ " LIKE '%" +:+ SimplifyString v +:+ "%'")
                   (id :: ids))
              " OR ")
           [] |}
  /\ BuildRootGroupIdConditions c [] = c.
Proof.
  split; [|done].
  unfold BuildRootGroupIdConditions.
  change (0 <? length (id :: ids))%nat with true. cbv iota.
  by rewrite BuildRootGroupIdConditions_loop.
Qed.

(** The sub-clause of one searchable column for one term. *)
Lemma searchColumnsLoop_appends (tableName v : string) (exclude acc : list string) :
  searchColumnsLoop tableName v exclude acc
  = (acc ++
     flat_map
       (fun column =>
          if stringutil.Contains exclude column then []
          else if Go.HasSuffix column "_id"
          then [column +:+ " = '" +:+ v +:+ "'"]
          else [column +:+ " LIKE '%" +:+ SimplifyString v +:+ "%'"])
       (default [] (SearchColumns !! tableName)))%list.
Proof.
  unfold searchColumnsLoop. apply fold_left_appends.
  intros orConditions column. cbv zeta.
  destruct (stringutil.Contains exclude column); [by rewrite app_nil_r|].
  destruct (Go.HasSuffix column "_id"); [done|].
  by rewrite like_text.
Qed.

(** What [getSearchFilter] records for a list of terms: a single
    condition, the sub-clauses of all terms joined by OR. *)
Lemma getSearchFilter_strings (tableName : string) (vs exclude : list string)
    (b : Build) :
  getSearchFilter tableName (VStrings vs) exclude b =
    {| build_chain :=
         {| chain_DB :=
              DB_Where (chain_DB (build_chain b))
                (Go.Join
                   (flat_map (fun v => searchColumnsLoop tableName v exclude []) vs)
                   " OR ")
                [] |};
       build_log := build_log b |}.
Proof.
  unfold getSearchFilter.
  rewrite (fold_left_appends _ (fun v => searchColumnsLoop tableName v exclude [])).
  - simpl. by rewrite app_nil_r.
  - intros acc v. by rewrite !searchColumnsLoop_appends.
Qed.

(** *** Conditions recorded by one field and by a whole request *)

Lemma getSearchFilter_absent (tableName : string) (exclude : list string)
    (b : Build) :
  Build_conditions (getSearchFilter tableName VNil exclude b)
  = (Build_conditions b ++ [{| query := ""; args := [] |}])%list
  /\ Build_rendered (getSearchFilter tableName VNil exclude b) = Build_rendered b
  /\ build_log (getSearchFilter tableName VNil exclude b) = build_log b.
Proof.
  unfold Build_rendered, Build_conditions, DB_rendered, getSearchFilter. simpl.
  repeat split.
  - rewrite filter_app, filter_cons, decide_False by (by intros Hne).
    by rewrite filter_nil, app_nil_r.
  - by rewrite app_nil_r.
Qed.

Lemma getSearchFilter_wrong_shape (tableName : string) (ns : list Z)
    (exclude : list string) (b : Build) :
  build_chain (getSearchFilter tableName (VInt32s ns) exclude b)
  = build_chain (getSearchFilter tableName VNil exclude b)
  /\ build_log (getSearchFilter tableName (VInt32s ns) exclude b)
     = (build_log b
        ++ [Warnf "search_word [%+v] is not []string" [AValue (VInt32s ns)]])%list.
Proof. done. Qed.

(** The search-filter step records one condition, without bound
    parameters. *)
Lemma getSearchFilter_conditions (tableName : string) (value : ReqValue)
    (exclude : list string) (b : Build) :
  exists q,
    Build_conditions (getSearchFilter tableName value exclude b)
    = (Build_conditions b ++ [{| query := q; args := [] |}])%list.
Proof.
  destruct value as [|vs|ns].
  - exists "". apply getSearchFilter_absent.
  - rewrite getSearchFilter_strings. by eexists.
  - exists "". by destruct (getSearchFilter_wrong_shape tableName ns exclude b).
Qed.

(** The conditions one iteration of the loop adds: the IN predicate of
    the field, if any, then the search condition, if any. *)
Lemma buildFilterField_conditions (tableName : string) (exclude : list string)
    (b : Build) (f : Field) :
  exists inPart searchPart,
    Build_conditions (buildFilterField tableName exclude b f)
    = (Build_conditions b ++ inPart ++ searchPart)%list
    /\ Forall (λ w, args w = []) searchPart
    /\ (inPart = []
        \/ inPart = [{| query := getFieldName f +:+ " in (?)";
                        args := [getReqValue (field_value f)] |}]
           /\ getReqValue (field_value f) <> VNil
           /\ exists cols, IndexedColumns !! tableName = Some cols
                           /\ getFieldName f ∈ cols).
Proof.
  unfold buildFilterField.
  set (b1 := match IndexedColumns !! tableName with Some _ => _ | None => _ end).
  assert (Hin : exists inPart,
             Build_conditions b1 = (Build_conditions b ++ inPart)%list
             /\ (inPart = []
                 \/ inPart = [{| query := getFieldName f +:+ " in (?)";
                                 args := [getReqValue (field_value f)] |}]
                    /\ getReqValue (field_value f) <> VNil
                    /\ exists cols, IndexedColumns !! tableName = Some cols
                                    /\ getFieldName f ∈ cols)).
  { subst b1. destruct (IndexedColumns !! tableName) as [cols|] eqn:Hcols.
    - destruct (stringutil.Contains cols (getFieldName f)) eqn:Hc.
      + destruct (decide (getReqValue (field_value f) ≠ VNil)) as [Hv|Hv].
        * eexists. split; [reflexivity|]. right. repeat split; [done|].
          exists cols. split; [done|]. by apply Contains_elem_of.
        * exists []. rewrite app_nil_r. by split; [|left].
      + exists []. rewrite app_nil_r. by split; [|left].
    - exists []. rewrite app_nil_r. by split; [|left]. }
  destruct Hin as (inPart & Hb1 & HinPart).
  destruct (String.eqb (getFieldName f) SearchWordColumnName
            && stringutil.Contains SearchWordColumnTable tableName).
  - destruct (getSearchFilter_conditions tableName (getReqValue (field_value f))
                exclude b1) as (q & Hq).
    exists inPart, [{| query := q; args := [] |}].
    rewrite Hq, Hb1, <- app_assoc. repeat split; [|done].
    by apply Forall_singleton.
  - exists inPart, []. rewrite app_nil_r. by repeat split.
Qed.

Lemma buildFilterField_grows (tableName : string) (exclude : list string)
    (b : Build) (f : Field) (w : WhereCond) :
  w ∈ Build_conditions b ->
  w ∈ Build_conditions (buildFilterField tableName exclude b f).
Proof.
  intros Hw.
  destruct (buildFilterField_conditions tableName exclude b f)
    as (inPart & searchPart & -> & _).
  apply elem_of_app. by left.
Qed.

Lemma buildFilterFields_grow (tableName : string) (exclude : list string)
    (fields : list Field) (b : Build) (w : WhereCond) :
  w ∈ Build_conditions b ->
  w ∈ Build_conditions (fold_left (buildFilterField tableName exclude) fields b).
Proof.
  revert b. induction fields as [|f fields IH]; intros b Hw; simpl; [done|].
  apply IH. by apply buildFilterField_grows.
Qed.

(** Every condition of the built chain was on the chain before, or has no
    bound parameter, or is the IN predicate of a field of the request. *)
Lemma buildFilterFields_conditions (tableName : string) (exclude : list string)
    (fields : list Field) (b : Build) (w : WhereCond) :
  w ∈ Build_conditions (fold_left (buildFilterField tableName exclude) fields b) ->
  w ∈ Build_conditions b
  \/ args w = []
  \/ exists f, f ∈ fields
               /\ w = {| query := getFieldName f +:+ " in (?)";
                         args := [getReqValue (field_value f)] |}
               /\ getReqValue (field_value f) <> VNil.
Proof.
  revert b. induction fields as [|f fields IH]; intros b Hw; simpl in Hw; [by left|].
  destruct (IH _ Hw) as [Hold|[Hargs|(g & Hg & Heq & Hv)]].
  - destruct (buildFilterField_conditions tableName exclude b f)
      as (inPart & searchPart & Hconds & Hsearch & HinPart).
    rewrite Hconds in Hold.
    apply elem_of_app in Hold as [Hold|Hold]; [by left|].
    apply elem_of_app in Hold as [Hold|Hold].
    + destruct HinPart as [->|(-> & Hv & _)]; [by apply elem_of_nil in Hold|].
      apply list_elem_of_singleton in Hold. right. right.
      exists f. split; [by left | done].
    + right. left. by apply (proj1 (Forall_forall _ _) Hsearch).
  - right. by left.
  - right. right. exists g. split; [by right | done].
Qed.

(** C1: on a table with an indexed-column set, for a field of the request
    whose column is in that set: if the field's value normalises to a
    non-absent list, the built chain carries the IN predicate on that
    column bound to exactly that list; if it normalises to absent, the
    field's iteration adds no predicate to the statement, and a request
    whose values for the column all normalise to absent gets no IN
    predicate on the column. *)
Theorem BuildFilterConditions_indexed_column (b : Build) (req : Request)
    (tableName : string) (exclude cols : list string) (f : Field) :
  IndexedColumns !! tableName = Some cols ->
  f ∈ structs_Fields req ->
  getFieldName f ∈ cols ->
  let C := getFieldName f in
  let value := getReqValue (field_value f) in
  (value <> VNil ->
     {| query := C +:+ " in (?)"; args := [value] |}
       ∈ Build_rendered (BuildFilterConditions b req tableName exclude))
  /\ (value = VNil ->
        forall b0, Build_rendered (buildFilterField tableName exclude b0 f)
                   = Build_rendered b0)
  /\ ((forall g, g ∈ structs_Fields req -> getFieldName g = C ->
                 getReqValue (field_value g) = VNil) ->
        forall v, {| query := C +:+ " in (?)"; args := [v] |}
                    ∈ Build_conditions (BuildFilterConditions b req tableName exclude) ->
                  {| query := C +:+ " in (?)"; args := [v] |} ∈ Build_conditions b).
Proof.
  intros Hcols Hf HC C value. repeat split.
  - intros Hv. unfold Build_rendered, DB_rendered.
    apply list_elem_of_filter. split; [apply in_text_nonempty|].
    fold (Build_conditions (BuildFilterConditions b req tableName exclude)).
    unfold BuildFilterConditions, buildFilterConditions.
    apply list_elem_of_split in Hf as (pre & post & ->).
    rewrite fold_left_app. simpl. apply buildFilterFields_grow.
    set (b1 := fold_left _ pre b).
    assert (Hstep :
      {| query := C +:+ " in (?)"; args := [value] |}
        ∈ Build_conditions
            (match IndexedColumns !! tableName with
             | Some indexedColumns =>
                 if stringutil.Contains indexedColumns (getFieldName f) then
                   if decide (getReqValue (field_value f) ≠ VNil) then
                     {| build_chain :=
                          {| chain_DB :=
                               DB_Where (chain_DB (build_chain b1))
                                 (getFieldName f +:+ " in (?)")
                                 [getReqValue (field_value f)] |};
                        build_log := build_log b1 |}
                   else b1
                 else b1
             | None => b1
             end)).
    { rewrite Hcols, (proj2 (Contains_elem_of _ _) HC), decide_True by done.
      unfold Build_conditions. simpl. apply elem_of_app. right. by left. }
    unfold buildFilterField.
    destruct (String.eqb (getFieldName f) SearchWordColumnName
              && stringutil.Contains SearchWordColumnTable tableName); [|done].
    destruct (getSearchFilter_conditions tableName (getReqValue (field_value f))
                exclude
                (match IndexedColumns !! tableName with
                 | Some indexedColumns =>
                     if stringutil.Contains indexedColumns (getFieldName f) then
                       if decide (getReqValue (field_value f) ≠ VNil) then
                         {| build_chain :=
                              {| chain_DB :=
                                   DB_Where (chain_DB (build_chain b1))
                                     (getFieldName f +:+ " in (?)")
                                     [getReqValue (field_value f)] |};
                            build_log := build_log b1 |}
                       else b1
                     else b1
                 | None => b1
                 end)) as (q & Hq).
    rewrite Hq. apply elem_of_app. by left.
  - intros Hv b0. unfold buildFilterField. fold value. rewrite Hv.
    rewrite Hcols, (proj2 (Contains_elem_of _ _) HC).
    rewrite decide_False by (by intros Hne).
    destruct (String.eqb (getFieldName f) SearchWordColumnName
              && stringutil.Contains SearchWordColumnTable tableName); [|done].
    apply getSearchFilter_absent.
  - intros Hall v Hw.
    apply buildFilterFields_conditions in Hw as [Hold|[Hargs|(g & Hg & Heq & Hv)]].
    + done.
    + discriminate Hargs.
    + injection Heq as Hq Hval.
      apply string_app_inj_r in Hq. exfalso. apply Hv. by apply Hall.
Qed.


End BuilderProperties.

(** C2 (the code, where it departs from the claim): for the two search
    terms "foo" and "bar" on a table with the searchable columns [user_id]
    and [name], the builder records one condition in which the sub-clauses
    of both terms are joined by OR; the groups of the two terms are not
    combined with AND. *)
Theorem getSearchFilter_terms_joined_by_or `{Stringutil} :
  Build_conditions
    (@BuildFilterConditions example_Constants _ empty_Build
       {| req_fields :=
            [json_field "SearchWord" "search_word,omitempty" (PStrings ["foo"; "bar"])];
          req_GetSortKey := None; req_GetReverse := None |}
       "user" [])
  = [{| query :=
          "user_id = 'foo' OR name LIKE '%" +:+ SimplifyString "foo"
          +:+ "%' OR user_id = 'bar' OR name LIKE '%" +:+ SimplifyString "bar" +:+ "%'";
        args := [] |}].
Proof.
  unfold BuildFilterConditions, buildFilterConditions, Build_conditions.
  cbn [structs_Fields req_fields fold_left].
  unfold buildFilterField.
  change (getFieldName _) with "search_word".
  change (IndexedColumns !! "user") with (Some ["user_id"; "status"]).
  cbn [stringutil.Contains existsb String.eqb Ascii.eqb Bool.eqb orb andb
       SearchWordColumnName SearchWordColumnTable example_Constants].
  cbv iota.
  change (getReqValue _) with (VStrings ["foo"; "bar"]).
  rewrite getSearchFilter_strings. cbn [flat_map].
  rewrite !searchColumnsLoop_appends.
  change (default [] (SearchColumns !! "user")) with ["user_id"; "name"].
  cbn -[SimplifyString]. unfold Go.Join, String.concat.
  by rewrite !string_app_assoc.
Qed.

Lemma BuildFilterConditions_indexed_column_witness :
  let f := json_field "UserId" "user_id,omitempty" (PString "u-1") in
  let req := {| req_fields := [f]; req_GetSortKey := None; req_GetReverse := None |} in
  @IndexedColumns example_Constants !! "user" = Some ["user_id"; "status"]
  /\ f ∈ structs_Fields req
  /\ getFieldName f ∈ ["user_id"; "status"]
  /\ {| query := "user_id in (?)"; args := [VStrings ["u-1"]] |}
       ∈ Build_rendered
           (@BuildFilterConditions example_Constants example_Stringutil
              empty_Build req "user" []).
Proof.
  intros f req.
  assert (Hcols : @IndexedColumns example_Constants !! "user"
                  = Some ["user_id"; "status"]) by reflexivity.
  assert (Hf : f ∈ structs_Fields req) by apply list_elem_of_here.
  assert (HC : getFieldName f ∈ ["user_id"; "status"]) by apply list_elem_of_here.
  split; [exact Hcols|]. split; [exact Hf|]. split; [exact HC|].
  apply (proj1 (@BuildFilterConditions_indexed_column example_Constants
                  example_Stringutil empty_Build req "user" []
                  ["user_id"; "status"] f Hcols Hf HC)).
  discriminate.
Defined.

(** ** The builder on a concrete request *)

(** A request with a user id list, a search word given as a wrapped number
    and an empty status, against the example tables: one IN predicate, an
    empty search condition, one warning. *)
Example BuildFilterConditions_example :
  @BuildFilterConditions example_Constants example_Stringutil empty_Build
    {| req_fields :=
         [json_field "UserId" "user_id,omitempty" (PStrings ["u-1"; ""; "u-2"]);
          json_field "SearchWord" "search_word,omitempty" (PInt32Value (Some 7));
          json_field "Status" "status,omitempty" (PString "")];
       req_GetSortKey := None; req_GetReverse := None |}
    "user" []
  = {| build_chain :=
         {| chain_DB :=
              {| whereConditions :=
                   [{| query := "user_id in (?)"; args := [VStrings ["u-1"; "u-2"]] |};
                    {| query := ""; args := [] |}];
                 orders := [] |} |};
       build_log := [Warnf "search_word [%+v] is not []string" [AValue (VInt32s [7])]] |}.
Proof. reflexivity. Qed.

Example ComparePassword_example :
  (@ComparePassword example_Services {| cp_UserId := "u-1"; cp_Password := "secret" |}).1
  = (Some {| Ok := true |}, None)
  /\ (@ComparePassword example_Services {| cp_UserId := "u-1"; cp_Password := "guess" |}).1
     = (Some {| Ok := false |}, None)
  /\ (@ComparePassword example_Services {| cp_UserId := "u-9"; cp_Password := "secret" |}).1
     = (None, Some (mk_error "record not found")).
Proof. by repeat split. Qed.

(** * Further properties of the package *)

(** ** Pagination *)

(** X1: the offset of a request is passed through unchanged: for a
    [uint32] offset the default for 0 is 0 and the [n < 0] guard of
    [GetOffset] never fires. *)
Theorem GetOffsetFromRequest_identity {R} `{RequestHadOffset R} (req : R) :
  Go.uint32_range (req_GetOffset req) ->
  GetOffsetFromRequest req = req_GetOffset req.
Proof.
  intros [Hlo _]. unfold GetOffsetFromRequest, GetOffset, DefaultOffset.
  destruct (Z.eqb_spec (req_GetOffset req) 0) as [->|_]; [done|].
  by destruct (Z.ltb_spec (req_GetOffset req) 0) as [|_]; [lia|].
Qed.

Lemma GetOffsetFromRequest_identity_witness :
  Go.uint32_range 4294967295
  /\ GetOffsetFromRequest {| page_limit := 20; page_offset := 4294967295 |} = 4294967295.
Proof.
  assert (Hr : Go.uint32_range 4294967295) by (unfold Go.uint32_range; lia).
  split; [exact Hr|].
  exact (GetOffsetFromRequest_identity
           {| page_limit := 20; page_offset := 4294967295 |} Hr).
Defined.

(** X2: whatever [uint32] limit a request carries, the limit obtained from
    it lies between 1 and 200: a query is never unbounded and never asks
    for zero rows. *)
Theorem GetLimitFromRequest_range {R} `{RequestHadLimit R} (req : R) :
  Go.uint32_range (req_GetLimit req) ->
  1 <= GetLimitFromRequest req <= DefaultSelectLimit.
Proof.
  intros [Hlo _].
  unfold GetLimitFromRequest, GetLimit, DefaultLimit, DefaultSelectLimit.
  destruct (Z.eqb_spec (req_GetLimit req) 0) as [|Hne]; [lia|].
  destruct (Z.ltb_spec (req_GetLimit req) 0) as [|_]; [lia|].
  destruct (req_GetLimit req >? 200) eqn:Hcmp; [lia|].
  assert (~ req_GetLimit req > 200) by (rewrite <- Z.gtb_gt; congruence). lia.
Qed.

Lemma GetLimitFromRequest_range_witness :
  Go.uint32_range 4294967295
  /\ 1 <= GetLimitFromRequest {| page_limit := 4294967295; page_offset := 0 |}
       <= DefaultSelectLimit.
Proof.
  assert (Hr : Go.uint32_range 4294967295) by (unfold Go.uint32_range; lia).
  split; [exact Hr|].
  exact (GetLimitFromRequest_range
           {| page_limit := 4294967295; page_offset := 0 |} Hr).
Defined.

(** X3: [GetLimit] is a clamp: its result is within 0 and 200, it never
    exceeds a non-negative argument, it is monotone, and clamping twice is
    clamping once. Unlike [GetLimitFromRequest] it has no default: 0 stays
    0. *)
Theorem GetLimit_clamp (n m : Z) :
  0 <= GetLimit n <= DefaultSelectLimit
  /\ (0 <= n -> GetLimit n <= n)
  /\ (n <= m -> GetLimit n <= GetLimit m)
  /\ GetLimit (GetLimit n) = GetLimit n
  /\ GetLimit 0 = 0.
Proof.
  assert (Hmin : forall k, GetLimit k = Z.min (Z.max k 0) 200).
  { intros k. unfold GetLimit, DefaultSelectLimit.
    destruct (Z.ltb_spec k 0).
    - rewrite Z.max_r by lia. done.
    - rewrite Z.max_l by lia. destruct (k >? 200) eqn:Hcmp.
      + apply Z.gtb_gt in Hcmp. lia.
      + assert (~ k > 200) by (rewrite <- Z.gtb_gt; congruence). lia. }
  rewrite !Hmin. unfold DefaultSelectLimit. repeat split; try lia.
Qed.

(** ** Column names of fields *)

Lemma rev_app_append (s t : string) :
  String.rev_app s t = String.rev s +:+ t.
Proof.
  unfold String.rev. revert t. induction s as [|a s IH]; intros t; [done|].
  simpl. rewrite (IH (String a t)), (IH (String a "")).
  by rewrite string_app_assoc.
Qed.

(** Reading a piece without separator up to a separator. *)
Lemma split_from_piece (sep : ascii) (name rest acc : string) :
  ~ In sep (list_ascii_of_string name) ->
  Go.split_from sep acc (name +:+ String sep rest)
  = (String.rev acc +:+ name) :: Go.split_from sep "" rest.
Proof.
  revert acc. induction name as [|a name IH]; intros acc Hfree.
  - change ("" +:+ String sep rest) with (String sep rest). simpl.
    rewrite Ascii.eqb_refl. f_equal.
    induction (String.rev acc) as [|c s IHs]; [done|].
    change (String c s = String c (s +:+ "")). by rewrite <- IHs.
  - change (String a name +:+ String sep rest)
      with (String a (name +:+ String sep rest)).
    simpl in *. destruct (Ascii.eqb_spec a sep) as [->|Hne]; [tauto|].
    rewrite IH by tauto. f_equal.
    unfold String.rev at 1. simpl. rewrite rev_app_append.
    by rewrite string_app_assoc.
Qed.

Lemma split_from_whole (sep : ascii) (name acc : string) :
  ~ In sep (list_ascii_of_string name) ->
  Go.split_from sep acc name = [String.rev acc +:+ name].
Proof.
  revert acc. induction name as [|a name IH]; intros acc Hfree.
  - simpl. f_equal.
    induction (String.rev acc) as [|c s IHs]; [done|].
    change (String c s = String c (s +:+ "")). by rewrite <- IHs.
  - simpl in *. destruct (Ascii.eqb_spec a sep) as [->|Hne]; [tauto|].
    rewrite IH by tauto. f_equal.
    unfold String.rev at 1. simpl. rewrite rev_app_append.
    by rewrite string_app_assoc.
Qed.

(** X4: the column of a field is the part of its [json] tag before the
    first comma: a tag [name,opts] (so [user_id,omitempty]) and a tag
    [name] both give [name], for a name without comma. *)
Theorem getFieldName_first_piece (f : Field) (name opts : string) :
  ~ In ","%char (list_ascii_of_string name) ->
  field_tags f !! TagName = Some name
  \/ field_tags f !! TagName = Some (name +:+ "," +:+ opts) ->
  getFieldName f = name.
Proof.
  intros Hfree [Htag|Htag]; unfold getFieldName, Field_Tag, Go.Split;
    rewrite Htag; simpl default.
  - by rewrite split_from_whole.
  - change ("," +:+ opts) with (String "," opts).
    by rewrite split_from_piece.
Qed.

Lemma getFieldName_first_piece_witness :
  let f := json_field "UserId" "user_id,omitempty" (PString "u-1") in
  ~ In ","%char (list_ascii_of_string "user_id")
  /\ field_tags f !! TagName = Some ("user_id" +:+ "," +:+ "omitempty")
  /\ getFieldName f = "user_id".
Proof.
  intros f.
  assert (Hfree : ~ In ","%char (list_ascii_of_string "user_id")).
  { simpl. intros Hin. repeat destruct Hin as [Hin|Hin]; try discriminate Hin. done. }
  assert (Htag : field_tags f !! TagName = Some ("user_id" +:+ "," +:+ "omitempty"))
    by reflexivity.
  split; [exact Hfree|]. split; [exact Htag|].
  exact (getFieldName_first_piece f "user_id" "omitempty" Hfree (or_intror Htag)).
Defined.

(** ** Normalisation of filter values *)

(** X5: a normalised value is absent or a non-empty list, never an empty
    list; from a string list it keeps no empty string and is a sublist of
    the input, in the input's order. *)
Theorem getReqValue_never_empty (param : Param) :
  getReqValue param <> VStrings []
  /\ getReqValue param <> VInt32s []
  /\ (forall l vs,
        param = PStrings l -> getReqValue param = VStrings vs ->
        ("" ∉ vs) /\ (vs `sublist_of` l)).
Proof.
  split; [|split].
  - destruct param as [s|[s|]|[n|]|l|t]; simpl; try done.
    + by destruct (String.eqb s "").
    + fold (getReqValue (PStrings l)). rewrite getReqValue_strings.
      by destruct (filter (λ v, v ≠ "") l).
  - destruct param as [s|[s|]|[n|]|l|t]; simpl; try done.
    + by destruct (String.eqb s "").
    + fold (getReqValue (PStrings l)). rewrite getReqValue_strings.
      by destruct (filter (λ v, v ≠ "") l).
  - intros l vs -> Hvs. rewrite getReqValue_strings in Hvs.
    assert (Heq : vs = filter (λ v, v ≠ "") l).
    { destruct (filter (λ v, v ≠ "") l); [discriminate Hvs | by injection Hvs]. }
    subst vs. split.
    + intros Hin. apply list_elem_of_filter in Hin as [Hne _]. by apply Hne.
    + apply sublist_filter.
Qed.

(** ** The search filter *)

Lemma Contains_false_not_elem_of (l : list string) (s : string) :
  stringutil.Contains l s = false <-> s ∉ l.
Proof.
  rewrite <- Contains_elem_of. by destruct (stringutil.Contains l s).
Qed.

Section SearchProperties.
Context `{Constants} `{Stringutil}.

(** The sub-clauses of one term, over the searchable columns that are not
    excluded. *)
Lemma searchColumnsLoop_clauses (tableName v : string) (exclude : list string) :
  searchColumnsLoop tableName v exclude []
  = map (fun column =>
           if Go.HasSuffix column "_id"
           then column +:+ " = '" +:+ v +:+ "'"
           else column +:+ " LIKE '%" +:+ SimplifyString v +:+ "%'")
        (filter (λ column, column ∉ exclude) (default [] (SearchColumns !! tableName))).
Proof.
  rewrite searchColumnsLoop_appends. simpl.
  induction (default [] (SearchColumns !! tableName)) as [|c cols IH]; [done|].
  simpl. rewrite filter_cons, IH.
  destruct (stringutil.Contains exclude c) eqn:Hc.
  - apply Contains_elem_of in Hc. by rewrite decide_False by (by intros Hn).
  - apply Contains_false_not_elem_of in Hc. rewrite decide_True by done.
    simpl. by destruct (Go.HasSuffix c "_id").
Qed.

(** X6: for a list of search terms the search-filter step records exactly
    one condition, without bound parameters, and logs nothing: the
    sub-clauses of every term over every searchable column that is not
    excluded ([=] for a column ending in [_id], LIKE on the neutralised term
    otherwise), term after term, all joined by OR; there are as many
    sub-clauses as terms times such columns. *)
Theorem getSearchFilter_single_condition (tableName : string)
    (vs exclude : list string) (b : Build) :
  let columns :=
    filter (λ column, column ∉ exclude) (default [] (SearchColumns !! tableName)) in
  let clause v column :=
    if Go.HasSuffix column "_id"
    then column +:+ " = '" +:+ v +:+ "'"
    else column +:+ " LIKE '%" +:+ SimplifyString v +:+ "%'" in
  let clauses := flat_map (fun v => map (clause v) columns) vs in
  getSearchFilter tableName (VStrings vs) exclude b =
    {| build_chain :=
         {| chain_DB :=
              DB_Where (chain_DB (build_chain b)) (Go.Join clauses " OR ") [] |};
       build_log := build_log b |}
  /\ length clauses = (length vs * length columns)%nat.
Proof.
  intros columns clause clauses. split.
  - rewrite getSearchFilter_strings.
    assert (Hclauses :
      flat_map (fun v => searchColumnsLoop tableName v exclude []) vs = clauses).
    { subst clauses. induction vs as [|v vs IH]; [done|]. simpl.
      by rewrite IH, searchColumnsLoop_clauses. }
    by rewrite Hclauses.
  - subst clauses. induction vs as [|v vs IH]; [done|]. simpl.
    by rewrite length_app, length_map, IH.
Qed.

(** X7: when every searchable column of the table is excluded (or the
    table has none), a search adds no condition to the statement and logs
    nothing, whatever the terms. *)
Theorem getSearchFilter_all_excluded (tableName : string)
    (vs exclude : list string) (b : Build) :
  Forall (λ column, column ∈ exclude) (default [] (SearchColumns !! tableName)) ->
  Build_rendered (getSearchFilter tableName (VStrings vs) exclude b) = Build_rendered b
  /\ build_log (getSearchFilter tableName (VStrings vs) exclude b) = build_log b.
Proof.
  intros Hall. rewrite getSearchFilter_strings. split; [|done].
  assert (Hnone : flat_map (fun v => searchColumnsLoop tableName v exclude []) vs = []).
  { induction vs as [|v vs IH]; [done|]. simpl.
    rewrite IH, searchColumnsLoop_clauses, app_nil_r.
    replace (filter (λ column, column ∉ exclude)
               (default [] (SearchColumns !! tableName))) with (@nil string); [done|].
    symmetry. induction Hall as [|c cols Hc _ IHc]; [done|].
    by rewrite filter_cons, decide_False by (by intros Hn). }
  rewrite Hnone. unfold Build_rendered, DB_rendered. simpl.
  rewrite filter_app, filter_cons, decide_False by (by intros Hne).
  by rewrite filter_nil, app_nil_r.
Qed.

End SearchProperties.

Lemma getSearchFilter_all_excluded_witness :
  Forall (λ column, column ∈ ["name"; "user_id"])
    (default [] (@SearchColumns example_Constants !! "user"))
  /\ Build_rendered
       (@getSearchFilter example_Constants example_Stringutil "user"
          (VStrings ["foo"; "bar"]) ["name"; "user_id"] empty_Build)
     = Build_rendered empty_Build.
Proof.
  assert (Hall : Forall (λ column, column ∈ ["name"; "user_id"])
                   (default [] (@SearchColumns example_Constants !! "user"))).
  { change (default [] (@SearchColumns example_Constants !! "user"))
      with ["user_id"; "name"].
    repeat constructor. }
  split; [exact Hall|].
  exact (proj1 (@getSearchFilter_all_excluded example_Constants example_Stringutil
                  "user" ["foo"; "bar"] ["name"; "user_id"] empty_Build Hall)).
Defined.

(** ** Composition of the chain operations *)

(** [AddQueryOrderDir] appends one ordering text and leaves the conditions
    alone. *)
Lemma AddQueryOrderDir_appends (c : Chain) (req : Request) (defaultColumn : string) :
  exists text,
    forall c0,
      AddQueryOrderDir c0 req defaultColumn =
        {| chain_DB :=
             {| whereConditions := whereConditions (chain_DB c0);
                orders := (orders (chain_DB c0) ++ [text])%list |} |}.
Proof.
  unfold AddQueryOrderDir, DB_Order. eexists. intros c0.
  by rewrite order_text_nonempty.
Qed.

Section FrameProperties.
Context `{Constants} `{Stringutil}.

(** The search-filter step in one equation: one condition without bound
    parameters, and the warning for a list of numbers. *)
Lemma getSearchFilter_frame (tableName : string) (value : ReqValue)
    (exclude : list string) (b : Build) :
  exists q,
    getSearchFilter tableName value exclude b =
      {| build_chain := {| chain_DB := DB_Where (chain_DB (build_chain b)) q [] |};
         build_log :=
           (build_log b ++
            match value with
            | VInt32s _ => [Warnf "search_word [%+v] is not []string" [AValue value]]
            | _ => []
            end)%list |}.
Proof. destruct value; by eexists. Qed.

(** One iteration of the loop: what it records and logs, beside what was
    there. *)
Lemma buildFilterField_frame (tableName : string) (exclude : list string)
    (b : Build) (f : Field) :
  exists new logged,
    Build_conditions (buildFilterField tableName exclude b f)
    = (Build_conditions b ++ new)%list
    /\ (length new <= 2)%nat
    /\ build_log (buildFilterField tableName exclude b f) = (build_log b ++ logged)%list
    /\ (length logged <= 1)%nat
    /\ orders (chain_DB (build_chain (buildFilterField tableName exclude b f)))
       = orders (chain_DB (build_chain b)).
Proof.
  unfold buildFilterField.
  set (b1 := match IndexedColumns !! tableName with Some _ => _ | None => _ end).
  assert (Hb1 : exists inPart,
             Build_conditions b1 = (Build_conditions b ++ inPart)%list
             /\ (length inPart <= 1)%nat
             /\ build_log b1 = build_log b
             /\ orders (chain_DB (build_chain b1)) = orders (chain_DB (build_chain b))).
  { subst b1. destruct (IndexedColumns !! tableName) as [cols|];
      [|exists []; rewrite app_nil_r; repeat split; simpl; lia].
    destruct (stringutil.Contains cols (getFieldName f));
      [|exists []; rewrite app_nil_r; repeat split; simpl; lia].
    destruct (decide (getReqValue (field_value f) ≠ VNil));
      [|exists []; rewrite app_nil_r; repeat split; simpl; lia].
    eexists [_]. repeat split; simpl; lia. }
  destruct Hb1 as (inPart & Hconds & Hlen & Hlog & Hord).
  destruct (String.eqb (getFieldName f) SearchWordColumnName
            && stringutil.Contains SearchWordColumnTable tableName).
  - destruct (getSearchFilter_frame tableName (getReqValue (field_value f)) exclude b1)
      as (q & ->).
    unfold Build_conditions in *. simpl. rewrite Hconds, Hlog, Hord, <- app_assoc.
    eexists _, _. split; [reflexivity|]. split; [rewrite length_app; simpl; lia|].
    split; [reflexivity|]. split; [|done].
    by destruct (getReqValue (field_value f)); simpl; lia.
  - exists inPart, []. rewrite !app_nil_r.
    split; [done|]. split; [lia|]. split; [done|]. split; [simpl; lia | done].
Qed.

(** X8: building filters only appends: the conditions and the log that
    were there are kept, in front and in order; at most two conditions and
    one log entry are added per field of the request; the orderings are
    not touched. *)
Theorem BuildFilterConditions_only_appends (b : Build) (req : Request)
    (tableName : string) (exclude : list string) :
  exists new logged,
    Build_conditions (BuildFilterConditions b req tableName exclude)
    = (Build_conditions b ++ new)%list
    /\ (length new <= 2 * length (structs_Fields req))%nat
    /\ build_log (BuildFilterConditions b req tableName exclude)
       = (build_log b ++ logged)%list
    /\ (length logged <= length (structs_Fields req))%nat
    /\ orders (chain_DB (build_chain (BuildFilterConditions b req tableName exclude)))
       = orders (chain_DB (build_chain b)).
Proof.
  unfold BuildFilterConditions, buildFilterConditions.
  generalize (structs_Fields req). intros fields. revert b.
  induction fields as [|f fields IH]; intros b.
  - exists [], []. rewrite !app_nil_r. repeat split; try done; simpl; lia.
  - simpl fold_left.
    destruct (IH (buildFilterField tableName exclude b f))
      as (new & logged & -> & Hnew & -> & Hlogged & ->).
    destruct (buildFilterField_frame tableName exclude b f)
      as (new1 & logged1 & -> & Hnew1 & -> & Hlogged1 & ->).
    exists (new1 ++ new)%list, (logged1 ++ logged)%list.
    rewrite <- !app_assoc, !length_app. repeat split; try done; simpl; lia.
Qed.

(** The loop does the same to the conditions and the log whatever is done
    to the orderings of the chain it starts from. *)
Lemma buildFilterFields_orders (g : list string -> list string)
    (tableName : string) (exclude : list string) (fields : list Field) (b : Build) :
  fold_left (buildFilterField tableName exclude) fields
    {| build_chain :=
         {| chain_DB :=
              {| whereConditions := Build_conditions b;
                 orders := g (orders (chain_DB (build_chain b))) |} |};
       build_log := build_log b |}
  = let b' := fold_left (buildFilterField tableName exclude) fields b in
    {| build_chain :=
         {| chain_DB :=
              {| whereConditions := Build_conditions b';
                 orders := g (orders (chain_DB (build_chain b'))) |} |};
       build_log := build_log b' |}.
Proof.
  revert b. induction fields as [|f fields IH]; intros b; [done|].
  simpl fold_left. rewrite <- IH. f_equal.
  unfold buildFilterField, getSearchFilter, Build_conditions.
  destruct (IndexedColumns !! tableName) as [cols|];
    destruct (String.eqb (getFieldName f) SearchWordColumnName
              && stringutil.Contains SearchWordColumnTable tableName);
    try destruct (stringutil.Contains cols (getFieldName f));
    try destruct (decide (getReqValue (field_value f) ≠ VNil));
    destruct (getReqValue (field_value f)); done.
Qed.

(** X9: ordering commutes with filtering: attaching the ordering before
    the root-group filter or before the request filters gives the chain,
    and the log, that attaching it after them gives. *)
Theorem AddQueryOrderDir_commutes (c : Chain) (log : list LogEntry)
    (sortReq req : Request) (defaultColumn tableName : string)
    (exclude rootGroupIds : list string) :
  AddQueryOrderDir (BuildRootGroupIdConditions c rootGroupIds) sortReq defaultColumn
  = BuildRootGroupIdConditions (AddQueryOrderDir c sortReq defaultColumn) rootGroupIds
  /\ BuildFilterConditions
       {| build_chain := AddQueryOrderDir c sortReq defaultColumn; build_log := log |}
       req tableName exclude
     = let b' :=
         BuildFilterConditions {| build_chain := c; build_log := log |}
           req tableName exclude in
       {| build_chain := AddQueryOrderDir (build_chain b') sortReq defaultColumn;
          build_log := build_log b' |}.
Proof.
  destruct (AddQueryOrderDir_appends c sortReq defaultColumn) as (text & Horder).
  split.
  - rewrite !Horder. unfold BuildRootGroupIdConditions.
    by destruct (0 <? length rootGroupIds)%nat.
  - cbv zeta. rewrite !Horder.
    unfold BuildFilterConditions, buildFilterConditions.
    exact (buildFilterFields_orders (fun o => (o ++ [text])%list) tableName exclude
             (structs_Fields req) {| build_chain := c; build_log := log |}).
Qed.

(** X10: on a table that has no indexed-column entry and is not
    search-capable, building filters does nothing, whatever the request
    carries. *)
Theorem BuildFilterConditions_unknown_table (b : Build) (req : Request)
    (tableName : string) (exclude : list string) :
  IndexedColumns !! tableName = None ->
  tableName ∉ SearchWordColumnTable ->
  BuildFilterConditions b req tableName exclude = b.
Proof.
  intros Hnone Hnot. apply Contains_false_not_elem_of in Hnot.
  unfold BuildFilterConditions, buildFilterConditions.
  induction (structs_Fields req) as [|f fields IH]; [done|].
  simpl. unfold buildFilterField at 2. by rewrite Hnone, Hnot, andb_false_r.
Qed.

(** X11: the exclude list bears on the search condition only: the
    conditions with bound parameters (the IN predicates) and the log of
    the built chain are the same for any two exclude lists. *)
Theorem BuildFilterConditions_exclude_independent (b : Build) (req : Request)
    (tableName : string) (exclude exclude' : list string) :
  filter (λ w, args w ≠ [])
    (Build_conditions (BuildFilterConditions b req tableName exclude))
  = filter (λ w, args w ≠ [])
      (Build_conditions (BuildFilterConditions b req tableName exclude'))
  /\ build_log (BuildFilterConditions b req tableName exclude)
     = build_log (BuildFilterConditions b req tableName exclude').
Proof.
  unfold BuildFilterConditions, buildFilterConditions.
  assert (Hgen : forall fields b1 b2,
            filter (λ w, args w ≠ []) (Build_conditions b1)
            = filter (λ w, args w ≠ []) (Build_conditions b2) ->
            build_log b1 = build_log b2 ->
            filter (λ w, args w ≠ [])
              (Build_conditions (fold_left (buildFilterField tableName exclude) fields b1))
            = filter (λ w, args w ≠ [])
                (Build_conditions
                   (fold_left (buildFilterField tableName exclude') fields b2))
            /\ build_log (fold_left (buildFilterField tableName exclude) fields b1)
               = build_log (fold_left (buildFilterField tableName exclude') fields b2)).
  { intros fields. induction fields as [|f fields IH]; intros b1 b2 Hc Hl; [done|].
    simpl. apply IH.
    - unfold buildFilterField.
      set (i1 := match IndexedColumns !! tableName with Some _ => _ | None => _ end).
      set (i2 := match IndexedColumns !! tableName with Some _ => _ | None => _ end).
      assert (Hi : filter (λ w, args w ≠ []) (Build_conditions i1)
                   = filter (λ w, args w ≠ []) (Build_conditions i2)).
      { subst i1 i2. destruct (IndexedColumns !! tableName) as [cols|]; [|done].
        destruct (stringutil.Contains cols (getFieldName f)); [|done].
        destruct (decide (getReqValue (field_value f) ≠ VNil)); [|done].
        unfold Build_conditions in *. simpl. by rewrite !filter_app, Hc. }
      destruct (String.eqb (getFieldName f) SearchWordColumnName
                && stringutil.Contains SearchWordColumnTable tableName); [|done].
      destruct (getSearchFilter_frame tableName (getReqValue (field_value f)) exclude i1)
        as (q1 & ->).
      destruct (getSearchFilter_frame tableName (getReqValue (field_value f)) exclude' i2)
        as (q2 & ->).
      unfold Build_conditions in *. simpl. rewrite !filter_app, Hi.
      by rewrite !filter_cons, !decide_False by (by intros Hne).
    - unfold buildFilterField.
      set (i1 := match IndexedColumns !! tableName with Some _ => _ | None => _ end).
      set (i2 := match IndexedColumns !! tableName with Some _ => _ | None => _ end).
      assert (Hi : build_log i1 = build_log i2).
      { subst i1 i2. destruct (IndexedColumns !! tableName) as [cols|]; [|done].
        destruct (stringutil.Contains cols (getFieldName f)); [|done].
        by destruct (decide (getReqValue (field_value f) ≠ VNil)). }
      destruct (String.eqb (getFieldName f) SearchWordColumnName
                && stringutil.Contains SearchWordColumnTable tableName); [|done].
      destruct (getSearchFilter_frame tableName (getReqValue (field_value f)) exclude i1)
        as (q1 & ->).
      destruct (getSearchFilter_frame tableName (getReqValue (field_value f)) exclude' i2)
        as (q2 & ->).
      simpl. by rewrite Hi. }
  by apply Hgen.
Qed.

End FrameProperties.

Lemma BuildFilterConditions_unknown_table_witness :
  let req :=
    {| req_fields := [json_field "GroupId" "group_id,omitempty" (PStrings ["g-1"]);
                      json_field "SearchWord" "search_word,omitempty" (PString "ops")];
       req_GetSortKey := None; req_GetReverse := None |} in
  @IndexedColumns example_Constants !! "group" = None
  /\ ("group" ∉ @SearchWordColumnTable example_Constants)
  /\ @BuildFilterConditions example_Constants example_Stringutil empty_Build
       req "group" [] = empty_Build.
Proof.
  intros req.
  assert (Hnone : @IndexedColumns example_Constants !! "group" = None) by reflexivity.
  assert (Hnot : "group" ∉ @SearchWordColumnTable example_Constants).
  { intros Hin. apply list_elem_of_singleton in Hin. discriminate Hin. }
  split; [exact Hnone|]. split; [exact Hnot|].
  exact (@BuildFilterConditions_unknown_table example_Constants example_Stringutil
           empty_Build req "group" [] Hnone Hnot).
Defined.

(** ** Password comparison *)

(** X12: [ComparePassword] returns either a response or an error, never
    both and never neither; it writes to the log exactly when the answer is
    not a match, one entry each time, and the entry of a mismatch carries
    the digest of the supplied password. *)
Theorem ComparePassword_response_xor_error `{Services} (req : ComparePasswordRequest) :
  let '(response, err, log) := ComparePassword req in
  (response = None <-> err <> None)
  /\ (log = [] <-> response = Some {| Ok := true |})
  /\ (length log <= 1)%nat
  /\ (response = Some {| Ok := false |} ->
        log = [Errorf "Compare password failed, md5(password): %x"
                 [AString (md5_Sum (cp_Password req))]]).
Proof.
  unfold ComparePassword.
  destruct (Database_Take _) as [e|user].
  - repeat split; try done; simpl; lia.
  - destruct (bcrypt_CompareHashAndPassword _ _);
      repeat split; try done; simpl; try lia; by intros [].
Qed.

(** ** Group membership *)

Section HandlerProperties.
Context `{Models} `{Columns} `{!Database}.

(** X13: a request to join or leave with no user id or no group id is
    refused as an invalid argument before the database is called: the
    database and the trace of calls are as they were, and the error is
    logged once. *)
Theorem membership_empty_ids_rejected (userIds groupIds : list string) (w : World) :
  let err := status_Errorf codes_InvalidArgument "empty user id or group id" in
  let w' :=
    {| w_db := w_db w; w_trace := w_trace w;
       w_log := (w_log w ++ [Errorf "%+v" [AError err]])%list |} in
  JoinGroup {| jg_UserId := []; jg_GroupId := groupIds |} w = (None, Some err, w')
  /\ JoinGroup {| jg_UserId := userIds; jg_GroupId := [] |} w = (None, Some err, w')
  /\ LeaveGroup {| lg_UserId := []; lg_GroupId := groupIds |} w = (None, Some err, w')
  /\ LeaveGroup {| lg_UserId := userIds; lg_GroupId := [] |} w = (None, Some err, w').
Proof.
  intros err w'. repeat split; try done.
  - unfold JoinGroup. simpl. by rewrite orb_true_r.
  - unfold LeaveGroup. simpl. by rewrite orb_true_r.
Qed.

(** The inner loop: either every binding of the group is inserted, or the
    insertions stop at the first failure, which is followed by a
    rollback. *)
Lemma JoinGroup_users_trace (groupId : string) (userIds : list string) (w : World) :
  let bindings := map (fun userId => NewUserGroupBinding userId groupId) userIds in
  match JoinGroup_users groupId userIds w with
  | (None, w') =>
      w_trace w' = (w_trace w ++ map OpCreate bindings)%list /\ w_log w' = w_log w
  | (Some err, w') =>
      exists created rest,
        bindings = (created ++ rest)%list /\ created <> []
        /\ w_trace w' = (w_trace w ++ map OpCreate created ++ [OpRollback])%list
        /\ w_log w'
           = (w_log w ++ [Errorf "Insert user group binding failed: %+v" [AError err]])%list
  end.
Proof.
  revert w. induction userIds as [|userId rest IH]; intros w; simpl.
  - by rewrite app_nil_r.
  - unfold mbind, M_bind, call at 1. simpl.
    destruct (db_Create (NewUserGroupBinding userId groupId) (w_db w)) as [[err|] d].
    + simpl. exists [NewUserGroupBinding userId groupId],
               (map (fun userId => NewUserGroupBinding userId groupId) rest).
      split; [done|]. split; [done|]. split; [|done].
      simpl. by rewrite <- app_assoc.
    + specialize (IH {| w_db := d;
                        w_trace := (w_trace w
                                    ++ [OpCreate (NewUserGroupBinding userId groupId)])%list;
                        w_log := w_log w |}).
      simpl in IH.
      destruct (JoinGroup_users groupId rest _) as [[err|] w'].
      * destruct IH as (created & rest' & Hb & Hne & Ht & Hl).
        exists (NewUserGroupBinding userId groupId :: created), rest'.
        split; [by rewrite Hb|]. split; [done|]. split; [|done].
        rewrite Ht. simpl. by rewrite <- app_assoc.
      * destruct IH as [Ht Hl]. split; [|done].
        rewrite Ht. by rewrite <- app_assoc.
Qed.

(** The outer loop, over the bindings of all groups, group by group. *)
Lemma JoinGroup_groups_trace (groupIds userIds : list string) (w : World) :
  let bindings :=
    flat_map
      (fun groupId => map (fun userId => NewUserGroupBinding userId groupId) userIds)
      groupIds in
  match JoinGroup_groups groupIds userIds w with
  | (None, w') =>
      w_trace w' = (w_trace w ++ map OpCreate bindings)%list /\ w_log w' = w_log w
  | (Some err, w') =>
      exists created rest,
        bindings = (created ++ rest)%list /\ created <> []
        /\ w_trace w' = (w_trace w ++ map OpCreate created ++ [OpRollback])%list
        /\ w_log w'
           = (w_log w ++ [Errorf "Insert user group binding failed: %+v" [AError err]])%list
  end.
Proof.
  revert w. induction groupIds as [|groupId groups IH]; intros w; simpl.
  - by rewrite app_nil_r.
  - unfold mbind, M_bind at 1.
    pose proof (JoinGroup_users_trace groupId userIds w) as Hu. simpl in Hu.
    destruct (JoinGroup_users groupId userIds w) as [[err|] w1].
    + simpl. destruct Hu as (created & rest & Hb & Hne & Ht & Hl).
      exists created, (rest ++ flat_map
                          (fun groupId =>
                             map (fun userId => NewUserGroupBinding userId groupId) userIds)
                          groups)%list.
      split; [by rewrite Hb, <- app_assoc | done].
    + destruct Hu as [Ht1 Hl1]. specialize (IH w1). simpl in IH.
      destruct (JoinGroup_groups groups userIds w1) as [[err|] w'].
      * destruct IH as (created & rest & Hb & Hne & Ht & Hl).
        exists (map (fun userId => NewUserGroupBinding userId groupId) userIds
                ++ created)%list, rest.
        split; [by rewrite Hb, <- app_assoc|].
        split; [intros Hnil; apply app_eq_nil in Hnil as [_ Hnil]; by apply Hne|].
        split; [|by rewrite Hl, Hl1].
        rewrite Ht, Ht1, map_app. by rewrite <- !app_assoc.
      * destruct IH as [Ht Hl]. split; [|by rewrite Hl, Hl1].
        rewrite Ht, Ht1, map_app. by rewrite <- !app_assoc.
Qed.

(** X14: the calls [JoinGroup] issues for a request with user and group
    ids are, after the lookup, one of: nothing more (the lookup failed or
    found a binding, and the request is refused without any write); a
    transaction with a non-empty prefix of the insertions, ended by a
    rollback and never committed (an insertion failed); a transaction with
    every insertion, one per group and user in group-major order, ended by
    a commit. A response is returned only in the last case, it repeats the
    ids of the request and nothing is logged; a response and an error are
    never returned together. *)
Theorem JoinGroup_transaction (req : JoinGroupRequest) (w : World) :
  jg_UserId req <> [] -> jg_GroupId req <> [] ->
  let bindings :=
    flat_map
      (fun groupId =>
         map (fun userId => NewUserGroupBinding userId groupId) (jg_UserId req))
      (jg_GroupId req) in
  let find := OpFindBindings (jg_GroupId req) (jg_UserId req) in
  let '(response, err, w') := JoinGroup req w in
  (response = None <-> err <> None)
  /\ (w_trace w' = (w_trace w ++ [find])%list /\ response = None
      \/ (exists created rest,
            bindings = (created ++ rest)%list /\ created <> []
            /\ w_trace w'
               = (w_trace w ++ [find; OpBegin] ++ map OpCreate created ++ [OpRollback])%list
            /\ response = None)
      \/ w_trace w'
         = (w_trace w ++ [find; OpBegin] ++ map OpCreate bindings ++ [OpCommit])%list)
  /\ (forall r, response = Some r ->
        r = {| jgr_GroupId := jg_GroupId req; jgr_UserId := jg_UserId req |}
        /\ w_log w' = w_log w
        /\ w_trace w'
           = (w_trace w ++ [find; OpBegin] ++ map OpCreate bindings ++ [OpCommit])%list
        /\ (db_FindBindings (jg_GroupId req) (jg_UserId req) (w_db w)).1 = inr []).
Proof.
  intros Hu Hg bindings find. unfold JoinGroup.
  assert (Hguard : (length (jg_UserId req) =? 0)%nat || (length (jg_GroupId req) =? 0)%nat
                   = false).
  { destruct (jg_UserId req); [done|]. by destruct (jg_GroupId req). }
  rewrite Hguard. unfold mbind, M_bind at 1. unfold GetUserGroupBindings.
  unfold mbind, M_bind at 1. unfold call at 1.
  destruct (db_FindBindings (jg_GroupId req) (jg_UserId req) (w_db w))
    as [[e|found] d] eqn:Hfind.
  - simpl. split; [done|]. split; [by left|]. by intros r Hr.
  - simpl. destruct found as [|b found].
    + change (negb (length (@nil UserGroupBinding) =? 0)%nat) with false. cbv iota.
      unfold mbind, M_bind at 1. unfold call at 1. simpl.
      unfold mbind, M_bind at 1.
      pose proof (JoinGroup_groups_trace (jg_GroupId req) (jg_UserId req)
                    {| w_db := db_Begin d;
                       w_trace := ((w_trace w ++ [find]) ++ [OpBegin])%list;
                       w_log := w_log w |}) as Hloop.
      cbv zeta in Hloop. fold bindings in Hloop. simpl w_trace in Hloop.
      simpl w_log in Hloop. subst find.
      destruct (JoinGroup_groups (jg_GroupId req) (jg_UserId req) _) as [[e|] w1].
      * simpl. destruct Hloop as (created & rest & Hb & Hne & Ht & Hl).
        split; [done|]. split; [|by intros r Hr].
        right. left. exists created, rest. repeat split; try done.
        rewrite Ht. by rewrite <- !app_assoc.
      * destruct Hloop as [Ht Hl].
        unfold mbind, M_bind at 1. unfold call at 1.
        destruct (db_Commit (w_db w1)) as [[e|] d2]; simpl.
        -- split; [done|]. split; [|by intros r Hr].
           right. right. rewrite Ht. by rewrite <- !app_assoc.
        -- split; [split; [done | by intros Hn]|]. split.
           ++ right. right. rewrite Ht. by rewrite <- !app_assoc.
           ++ intros r Hr. injection Hr as <-. repeat split; try done.
              rewrite Ht. by rewrite <- !app_assoc.
    + simpl. split; [done|]. split; [by left|]. by intros r Hr.
Qed.

(** X15: [LeaveGroup] deletes only after a lookup that found exactly as
    many bindings as there are pairs of a user id and a group id in the
    request; otherwise the request is refused and the lookup is the only
    call. The deletion is a single call, outside any transaction. A
    response repeats the ids of the request, is returned only when the
    deletion succeeded, and never together with an error. *)
Theorem LeaveGroup_guarded_delete (req : LeaveGroupRequest) (w : World) :
  lg_UserId req <> [] -> lg_GroupId req <> [] ->
  let find := OpFindBindings (lg_GroupId req) (lg_UserId req) in
  let delete := OpDeleteBindings (lg_GroupId req) (lg_UserId req) in
  let looked := (db_FindBindings (lg_GroupId req) (lg_UserId req) (w_db w)).1 in
  let '(response, err, w') := LeaveGroup req w in
  (response = None <-> err <> None)
  /\ (w_trace w' = (w_trace w ++ [find])%list /\ response = None
      \/ w_trace w' = (w_trace w ++ [find; delete])%list
         /\ exists found,
              looked = inr found
              /\ length found = (length (lg_UserId req) * length (lg_GroupId req))%nat)
  /\ (forall found,
        looked = inr found ->
        length found <> (length (lg_UserId req) * length (lg_GroupId req))%nat ->
        w_trace w' = (w_trace w ++ [find])%list
        /\ err = Some (status_Errorf codes_PermissionDenied "user not in group"))
  /\ (forall r, response = Some r ->
        r = {| lgr_GroupId := lg_GroupId req; lgr_UserId := lg_UserId req |}
        /\ w_log w' = w_log w
        /\ w_trace w' = (w_trace w ++ [find; delete])%list).
Proof.
  intros Hu Hg find delete looked. unfold LeaveGroup.
  assert (Hguard : (length (lg_UserId req) =? 0)%nat || (length (lg_GroupId req) =? 0)%nat
                   = false).
  { destruct (lg_UserId req); [done|]. by destruct (lg_GroupId req). }
  rewrite Hguard. unfold mbind, M_bind at 1. unfold GetUserGroupBindings.
  unfold mbind, M_bind at 1. unfold call at 1. subst looked.
  destruct (db_FindBindings (lg_GroupId req) (lg_UserId req) (w_db w))
    as [[e|found] d] eqn:Hfind.
  - simpl. split; [done|]. split; [by left|]. split; [by intros found Hf | by intros r Hr].
  - simpl.
    destruct (Nat.eqb_spec (length found)
                (length (lg_UserId req) * length (lg_GroupId req))) as [Hlen|Hlen].
    + simpl negb. cbv iota. unfold mbind, M_bind, call. simpl.
      destruct (db_DeleteBindings (lg_GroupId req) (lg_UserId req) d) as [[e|] d2]; simpl.
      * split; [done|]. split; [|split; [|by intros r Hr]].
        -- right. rewrite <- app_assoc. split; [done|]. by exists found.
        -- intros found' Hf Hne. injection Hf as <-. done.
      * split; [split; [done | by intros Hn]|]. split; [|split].
        -- right. rewrite <- app_assoc. split; [done|]. by exists found.
        -- intros found' Hf Hne. injection Hf as <-. done.
        -- intros r Hr. injection Hr as <-. by rewrite <- app_assoc.
    + simpl. split; [done|]. split; [by left|]. split; [|by intros r Hr].
      intros found' Hf Hne. by injection Hf as <-.
Qed.

(** ** Password change *)

(** X16: [ModifyPassword] refuses an empty password as an invalid argument
    without calling the database. For any other password it issues exactly
    one update, of the user named in the request; the update sets nothing
    but the password and update-time columns, and what it stores as the
    password is the bcrypt hash, not the password. A response names the
    user of the request and is never returned together with an error. *)
Theorem ModifyPassword_single_update (req : ModifyPasswordRequest) (w : World) :
  let '(response, err, w') := ModifyPassword req w in
  (response = None <-> err <> None)
  /\ (mp_Password req = "" ->
        w_db w' = w_db w /\ w_trace w' = w_trace w
        /\ err = Some (status_Errorf codes_InvalidArgument "empty password"))
  /\ (mp_Password req <> "" ->
        exists attributes,
          w_trace w' = (w_trace w ++ [OpUpdateUser (mp_UserId req) attributes])%list
          /\ dom attributes = ({[ColumnPassword; ColumnUpdateTime]} : gset string)
          /\ (ColumnPassword <> ColumnUpdateTime ->
                attributes !! ColumnPassword
                = Some (AttrString (GetBcryptPassword (mp_Password req))))
          /\ attributes !! ColumnUpdateTime = Some (AttrTime time_Now))
  /\ (forall r, response = Some r -> r = {| mpr_UserId := mp_UserId req |}).
Proof.
  unfold ModifyPassword. rewrite string_eqb_empty.
  destruct (decide (mp_Password req = "")) as [Hpw|Hpw].
  - rewrite bool_decide_eq_true_2 by done. simpl.
    split; [done|]. split; [done|]. split; [done | by intros r Hr].
  - rewrite bool_decide_eq_false_2 by done.
    unfold mbind, M_bind at 1. unfold call at 1.
    destruct (db_UpdateUser _ _ (w_db w)) as [[e|] d]; simpl.
    + split; [done|]. split; [done|]. split; [|by intros r Hr].
      intros _. eexists. split; [reflexivity|]. split; [|split].
      * rewrite !dom_insert_L, dom_empty_L, (right_id_L ∅ (∪)).
        apply (comm_L (∪)).
      * intros Hne. by rewrite lookup_insert_ne, lookup_insert_eq.
      * by rewrite lookup_insert_eq.
    + split; [split; [done | by intros Hn]|]. split; [done|].
      split; [|by intros r Hr; injection Hr as <-].
      intros _. eexists. split; [reflexivity|]. split; [|split].
      * rewrite !dom_insert_L, dom_empty_L, (right_id_L ∅ (∪)).
        apply (comm_L (∪)).
      * intros Hne. by rewrite lookup_insert_ne, lookup_insert_eq.
      * by rewrite lookup_insert_eq.
Qed.

End HandlerProperties.

Lemma JoinGroup_transaction_witness :
  let req := {| jg_UserId := ["u1"; "u2"]; jg_GroupId := ["g1"] |} in
  let w := example_World [("u3", "g1")] in
  jg_UserId req <> [] /\ jg_GroupId req <> []
  /\ (forall r, (@JoinGroup example_Models example_Database req w).1.1 = Some r ->
        r = {| jgr_GroupId := ["g1"]; jgr_UserId := ["u1"; "u2"] |}).
Proof.
  intros req w.
  assert (Hu : jg_UserId req <> []) by discriminate.
  assert (Hg : jg_GroupId req <> []) by discriminate.
  split; [exact Hu|]. split; [exact Hg|].
  pose proof (@JoinGroup_transaction example_Models example_Database req w Hu Hg) as T.
  cbv zeta in T. revert T.
  destruct (@JoinGroup example_Models example_Database req w) as [[response err] w'].
  intros (_ & _ & T) r Hr. by destruct (T r Hr).
Defined.

Lemma LeaveGroup_guarded_delete_witness :
  let req := {| lg_UserId := ["u1"; "u2"]; lg_GroupId := ["g1"] |} in
  let w := example_World [("u1", "g1"); ("u2", "g1")] in
  lg_UserId req <> [] /\ lg_GroupId req <> []
  /\ (forall r, (@LeaveGroup example_Models example_Database req w).1.1 = Some r ->
        r = {| lgr_GroupId := ["g1"]; lgr_UserId := ["u1"; "u2"] |}).
Proof.
  intros req w.
  assert (Hu : lg_UserId req <> []) by discriminate.
  assert (Hg : lg_GroupId req <> []) by discriminate.
  split; [exact Hu|]. split; [exact Hg|].
  pose proof (@LeaveGroup_guarded_delete example_Models example_Database req w Hu Hg) as T.
  cbv zeta in T. revert T.
  destruct (@LeaveGroup example_Models example_Database req w) as [[response err] w'].
  intros (_ & _ & _ & T) r Hr. by destruct (T r Hr).
Defined.

(** The handlers on the in-memory database: two users join a group, a
    second request for one of them is refused, and both leave. *)
Example JoinGroup_LeaveGroup_example :
  let join := {| jg_UserId := ["u1"; "u2"]; jg_GroupId := ["g1"] |} in
  let again := {| jg_UserId := ["u2"]; jg_GroupId := ["g1"] |} in
  let leave := {| lg_UserId := ["u1"; "u2"]; lg_GroupId := ["g1"] |} in
  let r1 := @JoinGroup example_Models example_Database join (example_World []) in
  let r2 := @JoinGroup example_Models example_Database again r1.2 in
  let r3 := @LeaveGroup example_Models example_Database leave r2.2 in
  stored (w_db r1.2) = [("u1", "g1"); ("u2", "g1")]
  /\ r2.1 = (None, Some (status_Errorf codes_PermissionDenied "user already in group"))
  /\ stored (w_db r2.2) = [("u1", "g1"); ("u2", "g1")]
  /\ r3.1 = (Some {| lgr_GroupId := ["g1"]; lgr_UserId := ["u1"; "u2"] |}, None)
  /\ stored (w_db r3.2) = [].
Proof. by repeat split. Qed.

(** ** Column projection and the root-group filter *)

Lemma GetDisplayColumns_loop_slice (whole l : list string) (acc : Go.slice string) :
  fold_left
    (fun newDisplayColumns column =>
       if stringutil.Contains whole column
       then Go.append newDisplayColumns column
       else newDisplayColumns) l acc
  = match filter (λ c, c ∈ whole) l with
    | [] => acc
    | kept => Go.mk_slice (Go.elems acc ++ kept)%list
    end.
Proof.
  revert acc. induction l as [|c l IH]; intros acc; [done|].
  simpl. rewrite IH, filter_cons.
  destruct (stringutil.Contains whole c) eqn:Hc.
  - apply Contains_elem_of in Hc. rewrite decide_True by done.
    unfold Go.append. simpl.
    destruct (filter (λ c, c ∈ whole) l); [done|]. by rewrite <- app_assoc.
  - apply Contains_false_not_elem_of in Hc. by rewrite decide_False.
Qed.

Lemma filter_nil_Forall_not {A} (P : A -> Prop) `{forall x, Decision (P x)} (l : list A) :
  filter P l = [] <-> Forall (λ x, ~ P x) l.
Proof.
  induction l as [|x l IH]; [by split|].
  rewrite filter_cons, Forall_cons. destruct (decide (P x)) as [HP|HP].
  - split; [discriminate | by intros [Hn _]].
  - rewrite IH. by split; [|intros [_ Hall]].
Qed.

(** X17: for a requested column list that is not nil, the result of
    [GetDisplayColumns] is the nil slice exactly when none of the requested
    columns is a column of the table. As nil stands for "all columns" on
    input, projecting such a result once more gives the whole column
    list. *)
Theorem GetDisplayColumns_nil_result (displayColumns : list string)
    (wholeColumns : Go.slice string) :
  (GetDisplayColumns (Go.mk_slice displayColumns) wholeColumns = Go.nil_slice
   <-> Forall (λ c, c ∉ Go.elems wholeColumns) displayColumns)
  /\ (Forall (λ c, c ∉ Go.elems wholeColumns) displayColumns ->
        GetDisplayColumns
          (GetDisplayColumns (Go.mk_slice displayColumns) wholeColumns) wholeColumns
        = wholeColumns).
Proof.
  assert (Hiff : GetDisplayColumns (Go.mk_slice displayColumns) wholeColumns
                 = Go.nil_slice
                 <-> Forall (λ c, c ∉ Go.elems wholeColumns) displayColumns).
  { unfold GetDisplayColumns. simpl Go.is_nil. cbv iota.
    destruct displayColumns as [|c l]; [by split|].
    change (Go.len (Go.mk_slice (c :: l)) =? 0)%nat with false. cbv iota.
    simpl Go.elems at 2. rewrite GetDisplayColumns_loop_slice.
    rewrite <- (filter_nil_Forall_not (λ c, c ∈ Go.elems wholeColumns)).
    by destruct (filter (λ c, c ∈ Go.elems wholeColumns) (c :: l)). }
  split; [exact Hiff|].
  intros Hnone. by rewrite (proj2 Hiff Hnone).
Qed.

Lemma like_clause_nonempty (column term rest : string) :
  column +:+ " LIKE '%" +:+ term +:+ rest <> "".
Proof. by destruct column. Qed.

Section RootGroupProperties.
Context `{Constants} `{Stringutil}.

(** X18: a root-group filter is never dropped: for a non-empty list of
    ids the condition [BuildRootGroupIdConditions] records has a non-empty
    text, so the rendered conditions grow by exactly that one condition,
    which has no bound parameter; the orderings are not touched. *)
Theorem BuildRootGroupIdConditions_rendered (c : Chain) (id : string)
    (ids : list string) :
  exists q,
    q <> ""
    /\ DB_rendered (chain_DB (BuildRootGroupIdConditions c (id :: ids)))
       = (DB_rendered (chain_DB c) ++ [{| query := q; args := [] |}])%list
    /\ orders (chain_DB (BuildRootGroupIdConditions c (id :: ids)))
       = orders (chain_DB c).
Proof.
  unfold BuildRootGroupIdConditions.
  change (0 <? length (id :: ids))%nat with true. cbv iota.
  rewrite BuildRootGroupIdConditions_loop. simpl app.
  set (q := Go.Join _ " OR ").
  assert (Hq : q <> "").
  { subst q. unfold Go.Join. simpl.
    destruct (map _ ids) as [|x xs]; [apply like_clause_nonempty|].
    rewrite !string_app_assoc. apply like_clause_nonempty. }
  exists q. split; [exact Hq|]. split; [|done].
  unfold DB_rendered. simpl. rewrite filter_app, filter_cons.
  by rewrite decide_True, filter_nil.
Qed.

End RootGroupProperties.
